(** * humble-hub: the response generator and the backend connector

    A shallow embedding of [src/services/geminiService.ts] and
    [src/services/imvuService.ts], and the properties of the two adapters
    proved over it.

    Conventions of the embedding.
    - A JavaScript computation is a function from a store to an [Outcome]
      (normal completion or a thrown error) and the store it leaves; the
      store is kept when the computation throws, as in JavaScript.
    - Everything the code obtains from outside (the clock, [Math.random],
      [fetch], the completion API, the socket constructor) is read from an
      environment record, so a theorem that quantifies over the environment
      covers every behaviour of the outside world.
    - Every observable action (a handler invocation, a request, a timer, a
      console line) is appended to a trace of effects.
    - An [async] function is run to completion as one sequence: the
      suspension at an [await] is not observable in what is proved here.
    - A string is the sequence of bytes of its UTF-8 encoding.
    - A number the code computes with is a double, rounded as IEEE 754
      rounds. *)

From Stdlib Require Import QArith.
From stdpp Require Import base list strings pretty.

Set Warnings "-register-all".
Local Open Scope string_scope.

(** ** JavaScript values, errors and outcomes *)

Module Js.

(** The characters the templates need, written by code so that no literal
    holds a quote or a line break. *)
Definition nl : string := String (Ascii.ascii_of_nat 10) EmptyString.
Definition dquote : string := String (Ascii.ascii_of_nat 34) EmptyString.

(** An [Error] object: what [throw] carries in both services. *)
Record Error := { kind : string; message : string }.

Definition TypeError (msg : string) : Error :=
  {| kind := "TypeError"; message := msg |}.

Inductive Outcome (A : Type) : Type :=
| Ret (a : A)
| Throw (e : Error).
Arguments Ret {A} a.
Arguments Throw {A} e.

(** What [JSON.parse] can produce, plus [undefined]. Numbers are the
    rationals (every finite double is one). An object keeps its members in
    document order; a later duplicate key shadows an earlier one. *)
Inductive Value : Type :=
| VUndefined
| VNull
| VBool (b : bool)
| VNum (q : Q)
| VStr (s : string)
| VArr (items : list Value)
| VObj (members : list (string * Value)).

(** [ToBoolean]. *)
Definition truthy (v : Value) : bool :=
  match v with
  | VUndefined | VNull => false
  | VBool b => b
  | VNum q => negb (Qeq_bool q 0)
  | VStr s => negb (String.eqb s EmptyString)
  | VArr _ | VObj _ => true
  end.

(** ToBoolean of a string, for [if (s)] and [!s]. *)
Definition truthy_string (s : string) : bool := negb (String.eqb s EmptyString).

Fixpoint member (key : string) (ms : list (string * Value)) : Value :=
  match ms with
  | [] => VUndefined
  | (k, v) :: rest =>
      match member key rest with
      | VUndefined => if String.eqb k key then v else VUndefined
      | later => later
      end
  end.

(** [v.key] for the keys the connector reads ([type], [data], [success],
    [error], [rooms], [roomId], [id], [name], [user], [userId],
    [username]): none of them is inherited from a prototype, so only an
    object can have one; reading from [undefined] or [null] throws. *)
Definition get (v : Value) (key : string) : Outcome Value :=
  match v with
  | VUndefined =>
      Throw (TypeError ("Cannot read properties of undefined (reading '" +:+ key +:+ "')"))
  | VNull =>
      Throw (TypeError ("Cannot read properties of null (reading '" +:+ key +:+ "')"))
  | VObj ms => Ret (member key ms)
  | _ => Ret VUndefined
  end.

Definition hasOwn (key : string) (ms : list (string * Value)) : bool :=
  existsb (fun kv => String.eqb (fst kv) key) ms.

(** [String(v)], as a template literal applies it. [render] prints a
    number. An array prints its elements separated by commas, [null] and
    [undefined] as nothing. An object parsed from JSON has no callable
    member: it prints through [Object.prototype.toString] unless a member
    of its own hides that method, and then the conversion throws. *)
Fixpoint toString (render : Q -> string) (v : Value) : Outcome string :=
  match v with
  | VUndefined => Ret "undefined"
  | VNull => Ret "null"
  | VBool b => Ret (if b then "true" else "false")
  | VNum q => Ret (render q)
  | VStr s => Ret s
  | VArr items =>
      let element x :=
        match x with
        | VUndefined | VNull => Ret EmptyString
        | _ => toString render x
        end in
      match
        (fix elements (l : list Value) : Outcome (list string) :=
           match l with
           | [] => Ret []
           | x :: rest =>
               match element x with
               | Throw e => Throw e
               | Ret shown =>
                   match elements rest with
                   | Throw e => Throw e
                   | Ret more => Ret (shown :: more)
                   end
               end
           end) items
      with
      | Throw e => Throw e
      | Ret parts => Ret (String.concat "," parts)
      end
  | VObj ms =>
      if hasOwn "toString" ms
      then Throw (TypeError "Cannot convert object to primitive value")
      else Ret "[object Object]"
  end.

(** [!o] for an object reference that may be [null]. *)
Definition isNull {A : Type} (o : option A) : bool :=
  match o with
  | Some _ => false
  | None => true
  end.

(** [a || b]. *)
Definition or_else (a b : Value) : Value := if truthy a then a else b.

(** [arr.slice(start)] with the one-argument form: a negative [start]
    counts from the end, and both ends are clamped. *)
Definition slice {A : Type} (start : Z) (arr : list A) : list A :=
  let len := Z.of_nat (length arr) in
  let k := if (start <? 0)%Z then Z.max (len + start) 0 else Z.min start len in
  drop (Z.to_nat k) arr.

(** [arr.join(sep)] on strings. *)
Definition join (sep : string) (parts : list string) : string :=
  String.concat sep parts.

(** [arr[i]] for a numeric index: [undefined] ([None]) out of range. *)
Definition index {A : Type} (arr : list A) (i : Z) : option A :=
  if (i <? 0)%Z then None else arr !! Z.to_nat i.

(** The white space and line ends of one byte: tab, line feed, vertical
    tab, form feed, carriage return, space. *)
Definition is_space (c : Ascii.ascii) : bool :=
  let n := Ascii.nat_of_ascii c in
  (Nat.eqb n 32 || (Nat.leb 9 n && Nat.leb n 13))%bool.

(** The number of bytes of the white-space or line-end character at the
    head of [s], and 0 when there is none. Beyond one byte, [trim] removes
    U+00A0, U+1680, U+2000 to U+200A, U+2028, U+2029, U+202F, U+205F, U+3000
    and U+FEFF. *)
Definition spaceWidth (s : string) : nat :=
  match s with
  | EmptyString => 0
  | String c1 rest1 =>
      if is_space c1 then 1
      else
        match rest1 with
        | EmptyString => 0
        | String c2 rest2 =>
            let b1 := Ascii.nat_of_ascii c1 in
            let b2 := Ascii.nat_of_ascii c2 in
            if (Nat.eqb b1 194 && Nat.eqb b2 160)%bool then 2
            else
              match rest2 with
              | EmptyString => 0
              | String c3 _ =>
                  let b3 := Ascii.nat_of_ascii c3 in
                  if ((Nat.eqb b1 225 && Nat.eqb b2 154 && Nat.eqb b3 128)
                      || (Nat.eqb b1 226 && Nat.eqb b2 128
                          && ((Nat.leb 128 b3 && Nat.leb b3 138)
                              || Nat.eqb b3 168 || Nat.eqb b3 169 || Nat.eqb b3 175))
                      || (Nat.eqb b1 226 && Nat.eqb b2 129 && Nat.eqb b3 159)
                      || (Nat.eqb b1 227 && Nat.eqb b2 128 && Nat.eqb b3 128)
                      || (Nat.eqb b1 239 && Nat.eqb b2 187 && Nat.eqb b3 191))%bool
                  then 3 else 0
              end
        end
  end.

Fixpoint dropBytes (n : nat) (s : string) : string :=
  match n, s with
  | S k, String _ rest => dropBytes k rest
  | _, _ => s
  end.

(** White space is taken off the head, one character at a time; a string
    has no more characters than bytes. *)
Fixpoint strip (fuel : nat) (s : string) : string :=
  match fuel with
  | O => s
  | S less =>
      match spaceWidth s with
      | O => s
      | width => strip less (dropBytes width s)
      end
  end.

Definition trimStart (s : string) : string := strip (String.length s) s.

(** A text of white space only, the empty text included. *)
Definition blank (s : string) : bool := String.eqb (trimStart s) EmptyString.

Fixpoint trimEnd (s : string) : string :=
  match s with
  | EmptyString => EmptyString
  | String c rest => if blank s then EmptyString else String c (trimEnd rest)
  end.

Definition trim (s : string) : string := trimEnd (trimStart s).

(** [s.split('\n')[0]]: the text before the first line break. *)
Fixpoint firstLine (s : string) : string :=
  match s with
  | EmptyString => EmptyString
  | String c rest =>
      if Ascii.eqb c (Ascii.ascii_of_nat 10) then EmptyString else String c (firstLine rest)
  end.

(** *** Computations over a store *)

Section Computation.
Context {St : Type}.

Definition M (A : Type) : Type := St -> Outcome A * St.

Definition ret {A} (a : A) : M A := fun s => (Ret a, s).
Definition throw {A} (e : Error) : M A := fun s => (Throw e, s).

Definition bind {A B} (m : M A) (k : A -> M B) : M B :=
  fun s =>
    match m s with
    | (Ret a, s') => k a s'
    | (Throw e, s') => (Throw e, s')
    end.

(** [try { body } catch (error) { handler }]. *)
Definition try_catch {A} (body : M A) (handler : Error -> M A) : M A :=
  fun s =>
    match body s with
    | (Ret a, s') => (Ret a, s')
    | (Throw e, s') => handler e s'
    end.

(** An expression that may throw, evaluated inside a computation. *)
Definition lift {A} (o : Outcome A) : M A := fun s => (o, s).

Definition modify (f : St -> St) : M unit := fun s => (Ret tt, f s).
Definition read : M St := fun s => (Ret s, s).
End Computation.

Arguments M : clear implicits.

End Js.

Import Js.

Declare Scope js_scope.
Delimit Scope js_scope with js.
Notation "'let*' x ':=' m 'in' k" := (bind m (fun x => k))
  (at level 10, x name, m at level 100, k at level 200) : js_scope.
Notation "'exec' m 'in' k" := (bind m (fun _ => k))
  (at level 10, m at level 100, k at level 200) : js_scope.

Local Open Scope js_scope.

(** ** Doubles *)

Module Double.

(** A finite double that is not negative: the integer [mantissa] scaled by
    two to the [exponent]. Several pairs stand for one number, and the
    operations depend on the number only. Infinities, NaN and negative
    numbers are not needed: the code multiplies and adds a result of
    [Math.random()], which is in [0, 1), and small integers. *)
Record double := { mantissa : Z; exponent : Z }.

(** The pairs a 64-bit double holds: 53 bits of mantissa, and exponents
    from that of the smallest subnormal. *)
Definition representable (x : double) : bool :=
  ((0 <=? mantissa x) && (mantissa x <? 2 ^ 53)
   && (-1074 <=? exponent x) && (exponent x <=? 971))%Z.

Definition ofZ (n : Z) : double := {| mantissa := n; exponent := 0 |}.

(** [x] as a multiple of two to the [e], for [e] at most its exponent. *)
Definition scaled (x : double) (e : Z) : Z := (mantissa x * 2 ^ (exponent x - e))%Z.

Definition ltb (x y : double) : bool :=
  let e := Z.min (exponent x) (exponent y) in (scaled x e <? scaled y e)%Z.

Definition leb (x y : double) : bool :=
  let e := Z.min (exponent x) (exponent y) in (scaled x e <=? scaled y e)%Z.

(** The number of low bits that do not fit: those beyond 53, and those
    below the smallest exponent. *)
Definition excess (m e : Z) : Z :=
  Z.max 0 (Z.max (Z.log2 m + 1 - 53) (- 1074 - e)).

(** The double nearest to [m] times two to the [e], ties going to the even
    mantissa: the rounding of every arithmetic operation. *)
Definition nearest (m e : Z) : double :=
  let d := excess m e in
  let q := (m / 2 ^ d)%Z in
  let rest := (m mod 2 ^ d)%Z in
  let half := (2 ^ (d - 1))%Z in
  let up := ((0 <? d) && ((half <? rest) || ((rest =? half) && Z.odd q)))%Z in
  {| mantissa := if up then (q + 1)%Z else q; exponent := (e + d)%Z |}.

(** [x * y] and [x + y]. *)
Definition mul (x y : double) : double :=
  nearest (mantissa x * mantissa y) (exponent x + exponent y).

Definition add (x y : double) : double :=
  let e := Z.min (exponent x) (exponent y) in
  nearest (scaled x e + scaled y e) e.

(** [Math.floor(x)]. *)
Definition floor (x : double) : Z :=
  if (0 <=? exponent x)%Z then (mantissa x * 2 ^ exponent x)%Z
  else (mantissa x / 2 ^ (- exponent x))%Z.

(** A result of [Math.random()]: a double in [0, 1). *)
Definition unit (x : double) : bool := representable x && ltb x (ofZ 1).

(** One half, 0.6 and one third as the nearest doubles, and the largest
    double below one. *)
Definition half : double := {| mantissa := 1; exponent := -1 |}.
Definition sixTenths : double := {| mantissa := 5404319552844595; exponent := -53 |}.
Definition oneThird : double := {| mantissa := 6004799503160661; exponent := -54 |}.
Definition almostOne : double := {| mantissa := 2 ^ 53 - 1; exponent := -53 |}.

End Double.

(** ** The response generator: [src/services/geminiService.ts] *)

Module Gemini.

(** Modelled from the spec: [../types] is not among the sources. The data
    model of the spec gives a personality its named traits (style, humor,
    aggressiveness and creativity levels 0-100, behavior, mode, language),
    a conversation message its author display name, author identifier and
    text, and a bot its identifier, display name, personality and
    provider. The fields are named as the code reads them. A level is an
    integer, interpolated in decimal; a provider is the string the code
    compares with ['gpt'] and ['gemini']. *)
Record AIPersonality := {
  style : string;
  humor : Z;
  aggressiveness : Z;
  creativity : Z;
  behavior : string;
  mode : string;
  language : string
}.

Record Message := { author : string; authorId : string; text : string }.

Definition AIProvider := string.

Record Bot := {
  id : string;
  name : string;
  personality : AIPersonality;
  aiProvider : AIProvider
}.

(** The global [process] where the module is evaluated: not declared (a
    browser page without a shim), declared without being an object, or an
    object whose [env] is [None] when it is [undefined] or [null] and
    otherwise gives [GEMINI_API_KEY], [None] when the variable is unset. *)
Inductive ProcessGlobal :=
| NotDeclared
| NotAnObject
| Process (env : option (option string)).

(** The two places a key is looked for. [importMetaEnv] is
    [import.meta.env]: [None] when it is [undefined] or [null], and otherwise
    it gives [VITE_GEMINI_API_KEY]. *)
Record Environ := {
  importMetaEnv : option (option string);
  process : ProcessGlobal
}.

(** [env?.KEY]. *)
Definition optionalKey (env : option (option string)) : option string :=
  match env with
  | Some key => key
  | None => None
  end.

Definition set_and_truthy (v : option string) : bool :=
  match v with
  | Some k => truthy_string k
  | None => false
  end.

Definition getApiKey (e : Environ) : Outcome string :=
  let viteKey := optionalKey (importMetaEnv e) in
  if set_and_truthy viteKey then Ret (default EmptyString viteKey)
  else
    match process e with
    | NotDeclared =>
        Throw {| kind := "ReferenceError"; message := "process is not defined" |}
    | NotAnObject =>
        Throw (TypeError "Cannot read properties of undefined (reading 'env')")
    | Process env =>
        let processKey := optionalKey env in
        if set_and_truthy processKey then Ret (default EmptyString processKey)
        else Ret EmptyString
    end.

(** The completion client and what it answers. *)
Module Sdk.
Record GoogleGenAI := { apiKey : string }.
Record GenerateContentResponse := { text : option string }.
End Sdk.

(** The module once it is loaded, and its outside world: the constant
    [API_KEY], the successive results of [Math.random()] and the completion
    service. *)
Record Env := {
  API_KEY : string;
  random : nat -> Double.double;
  generateContent : string -> string -> Outcome Sdk.GenerateContentResponse
}.

(** The evaluation of the module: [const API_KEY = getApiKey()] runs first,
    and when it throws there is no module and nothing to call. *)
Definition load (e : Environ) (draws : nat -> Double.double)
    (service : string -> string -> Outcome Sdk.GenerateContentResponse) : Outcome Env :=
  match getApiKey e with
  | Ret key => Ret {| API_KEY := key; random := draws; generateContent := service |}
  | Throw error => Throw error
  end.

Definition ai (env : Env) : option Sdk.GoogleGenAI :=
  if truthy_string (API_KEY env) then Some {| Sdk.apiKey := API_KEY env |} else None.

Inductive Effect :=
| ConsoleWarn (line : string)
| ConsoleError (label : string) (error : Error)
| Timeout (ms : Double.double)
| GenerateContent (model contents : string).

(** The store of a run: what was observed so far and how many random
    numbers were drawn. *)
Record Store := { trace : list Effect; draws : nat }.

Definition start : Store := {| trace := []; draws := 0 |}.

Definition emit (e : Effect) : M Store unit :=
  modify (fun s => {| trace := trace s ++ [e]; draws := draws s |}).

Definition mathRandom (env : Env) : M Store Double.double :=
  fun s => (Ret (random env (draws s)), {| trace := trace s; draws := S (draws s) |}).

(** [await new Promise(res => setTimeout(res, ms))]. *)
Definition sleep (ms : Double.double) : M Store unit := emit (Timeout ms).

Definition renderMessage (msg : Message) : string :=
  author msg +:+ ": " +:+ text msg.

Definition historyText (history : list Message) : string :=
  join nl (map renderMessage (slice (-10) history)).

Definition generatePrompt (personality : AIPersonality) (history : list Message)
    (botName : string) : string :=
  join nl [
    EmptyString;
    "You are an IMVU chat bot named " +:+ botName
      +:+ ". Your personality is strictly defined by these traits:";
    "- Style: " +:+ style personality;
    "- Humor Level (0-100): " +:+ pretty (humor personality);
    "- Aggressiveness (0-100): " +:+ pretty (aggressiveness personality);
    "- Creativity (0-100): " +:+ pretty (creativity personality);
    "- Behavior: " +:+ behavior personality;
    "- Mode: " +:+ mode personality;
    "- Language: " +:+ language personality;
    EmptyString;
    "Based on this personality, you must continue the following conversation.";
    "Your response should be a single, short chat message. Do not use your name in the response.";
    EmptyString;
    "Conversation History:";
    historyText history;
    EmptyString;
    botName +:+ ":"
  ].

Definition mockResponses : list string :=
  ["lol that's funny"; "idk"; "cool"; "what do you mean?"; "nice outfit!"].

Definition apology : string := "I'm not sure what to say.".

(** [Math.floor(Math.random() * arr.length)] used as an index of [arr]. *)
Definition randomElement (env : Env) (arr : list string) : M Store (option string) :=
  let* r := mathRandom env in
  ret (index arr (Double.floor (Double.mul r (Double.ofZ (Z.of_nat (length arr)))))).

(** The branch taken when no completion is asked for. *)
Definition usesMock (env : Env) (provider : AIProvider) : bool :=
  String.eqb provider "gpt" || isNull (ai env) || negb (truthy_string (API_KEY env)).

(** The result is [None] where the JavaScript value is [undefined]. *)
Definition generateBotResponse (env : Env) (personality : AIPersonality)
    (history : list Message) (botName : string) (provider : AIProvider)
    : M Store (option string) :=
  if usesMock env provider then
    exec (if String.eqb provider "gemini" && negb (truthy_string (API_KEY env))
          then emit (ConsoleWarn
            "⚠️ Gemini API key not set. Using mock responses. Set VITE_GEMINI_API_KEY in your environment.")
          else ret tt) in
    let* r := mathRandom env in
    exec sleep (Double.add (Double.ofZ 500) (Double.mul r (Double.ofZ 500))) in
    randomElement env mockResponses
  else
    let prompt := generatePrompt personality history botName in
    try_catch
      (exec emit (GenerateContent "gemini-2.5-flash" prompt) in
       let* response := lift (generateContent env "gemini-2.5-flash" prompt) in
       let* text := lift (match Sdk.text response with
                          | Some t => Ret (trim t)
                          | None => Throw (TypeError
                              "Cannot read properties of undefined (reading 'trim')")
                          end) in
       ret (if truthy_string (firstLine text) then Some (firstLine text)
            else index mockResponses 0))
      (fun error =>
         exec emit (ConsoleError "Error generating Gemini response:" error) in
         ret (Some apology)).

Definition summarizeRoom (history : list Message) : M Store string :=
  exec sleep (Double.ofZ 300) in
  if Nat.eqb (length history) 0 then ret "The room is quiet."
  else
    match history !! (length history - 1)%nat with
    | Some lastMessage =>
        ret ("The last message was from " +:+ author lastMessage +:+ ": " +:+ dquote
               +:+ text lastMessage +:+ dquote +:+ ". The conversation seems casual.")
    | None => throw (TypeError "Cannot read properties of undefined (reading 'author')")
    end.

Definition emotions : list string := ["happy"; "neutral"; "curious"].

Definition detectEmotions (env : Env) (input : string) : M Store (option string) :=
  exec sleep (Double.ofZ 200) in
  randomElement env emotions.

Record Turn := { botToSpeak : string; message : option string }.

Definition coordinateDialogue (env : Env) (botA botB : Bot) (history : list Message)
    : M Store Turn :=
  exec sleep (Double.ofZ 1000) in
  let* lastSpeakerId :=
    (if Nat.ltb 0 (length history) then
       match history !! (length history - 1)%nat with
       | Some lastMessage => ret (authorId lastMessage)
       | None => throw (TypeError "Cannot read properties of undefined (reading 'authorId')")
       end
     else ret (id botB)) in
  let speaker := if String.eqb lastSpeakerId (id botB) then botA else botB in
  let* reply := generateBotResponse env (personality speaker) history (name speaker)
                  (aiProvider speaker) in
  ret {| botToSpeak := id speaker; message := reply |}.

(** The last [n] entries of a history, oldest first: the words of the
    specification, to compare with [slice (-10)]. *)
Definition lastEntries (n : nat) (history : list Message) : list Message :=
  drop (length history - n) history.

(** Sample inputs: a process without a key and one with a key whose
    completion call fails, two bots and two histories. *)
Definition offline : Env :=
  {| API_KEY := EmptyString;
     random := fun _ => Double.half;
     generateContent := fun _ _ => Throw (TypeError "fetch failed") |}.

Definition keyed : Env :=
  {| API_KEY := "k-123";
     random := fun _ => Double.half;
     generateContent := fun _ _ => Throw (TypeError "fetch failed") |}.

Definition plain : AIPersonality :=
  {| style := "casual"; humor := 50; aggressiveness := 10; creativity := 70;
     behavior := "friendly"; mode := "chat"; language := "en" |}.

Definition terse : AIPersonality :=
  {| style := "dry"; humor := 0; aggressiveness := 90; creativity := 5;
     behavior := "curt"; mode := "reply"; language := "pt" |}.

Definition alice : Bot :=
  {| id := "bot-a"; name := "Alice"; personality := plain; aiProvider := "gpt" |}.

Definition bruno : Bot :=
  {| id := "bot-b"; name := "Bruno"; personality := terse; aiProvider := "gemini" |}.

Definition greeting : list Message :=
  [{| author := "Bob"; authorId := "u-7"; text := "hi" |}].

(** *** Notions used to state further properties *)

(** A text that holds a line feed, the character [split] cuts at. *)
Fixpoint hasLineFeed (s : string) : bool :=
  match s with
  | EmptyString => false
  | String c rest => Ascii.eqb c (Ascii.ascii_of_nat 10) || hasLineFeed rest
  end.

(** The completion calls a trace shows, as model and contents, and the
    waits it shows, in order. *)
Fixpoint completions (t : list Effect) : list (string * string) :=
  match t with
  | [] => []
  | GenerateContent model contents :: rest => (model, contents) :: completions rest
  | _ :: rest => completions rest
  end.

Fixpoint delays (t : list Effect) : list Double.double :=
  match t with
  | [] => []
  | Timeout ms :: rest => ms :: delays rest
  | _ :: rest => delays rest
  end.

(** The author identifier the turn logic looks at: the last entry's, or
    [fallback] on an empty history. *)
Definition lastSpeaker (fallback : string) (history : list Message) : string :=
  from_option authorId fallback (last history).

(** More sample inputs: a completion service that answers two lines, one
    that answers white space, and one whose answer carries no text. *)
Definition answering : Env :=
  {| API_KEY := "k-456";
     random := fun _ => Double.half;
     generateContent := fun _ _ =>
       Ret {| Sdk.text := Some ("  sure thing" +:+ nl +:+ "second line  ") |} |}.

(** The no-break space U+00A0 and the byte order mark U+FEFF. *)
Definition nbsp : string :=
  String (Ascii.ascii_of_nat 194) (String (Ascii.ascii_of_nat 160) EmptyString).

Definition bom : string :=
  String (Ascii.ascii_of_nat 239)
    (String (Ascii.ascii_of_nat 187) (String (Ascii.ascii_of_nat 191) EmptyString)).

Definition blankAnswer : Env :=
  {| API_KEY := "k-123";
     random := fun _ => Double.half;
     generateContent := fun _ _ =>
       Ret {| Sdk.text := Some (nbsp +:+ " " +:+ nl +:+ bom +:+ " ") |} |}.

(** Where the module is evaluated: a page without [process], and a
    process with the variable set. *)
Definition page : Environ := {| importMetaEnv := Some None; process := NotDeclared |}.

Definition server : Environ :=
  {| importMetaEnv := None; process := Process (Some (Some "k-456")) |}.

Definition carol : Bot :=
  {| id := "bot-c"; name := "Carol"; personality := terse; aiProvider := "gpt" |}.

End Gemini.

(** ** The backend connector: [src/services/imvuService.ts] *)

Module Imvu.

Definition BACKEND_URL : string := "http://localhost:3001".
Definition WS_URL : string := "ws://localhost:3001/ws".

(** A handler a subscriber registers. Its body is the subscriber's code:
    the connector only stores it and calls it, so the model identifies it
    by a tag, records each call with its arguments, and, in this module,
    takes the call to return. [Subscribed] below embeds the same class
    without that assumption, and what is proved about returning and not
    throwing is proved there. *)
Record Callback := { tag : nat }.

Record WebSocket := { url : string; serial : nat }.

(** The fields of the class. *)
Record ImvuService := {
  messageCallback : option Callback;
  logCallback : option Callback;
  userJoinedCallback : option Callback;
  userLeftCallback : option Callback;
  ws : option WebSocket
}.

Record RequestInit := {
  method : string;
  headers : list (string * string);
  body : option string
}.

(** What [await fetch(...)] gives: [ok] and the result of [json()]. *)
Record Response := { ok : bool; json : Outcome Value }.

(** The only function the connector hands to [setTimeout]. *)
Inductive Task := Reconnect.

Inductive Effect :=
| Invoke (callback : Callback) (arguments : list Value)
| ConsoleError (label : string) (detail : Error)
| Fetch (resource : string) (init : option RequestInit)
| NewWebSocket (address : string)
| SetTimeout (task : Task) (ms : Z).

(** The outside world of the connector. [toLocaleTimeString n] is the
    clock at its [n]-th reading, [construct n] says whether the [n]-th
    [new WebSocket] throws, and [network] answers a request or rejects
    it. [JSON.parse], [JSON.stringify] and the printing of numbers are
    the runtime's. *)
Record Env := {
  toLocaleTimeString : nat -> string;
  numberToString : Q -> string;
  JSON_parse : string -> Outcome Value;
  JSON_stringify : Value -> string;
  network : string -> option RequestInit -> Outcome Response;
  construct : nat -> Outcome unit
}.

(** The store: the object, the trace, the timers not yet due, and the
    numbers of clock readings and of sockets constructed so far. *)
Record World := {
  self : ImvuService;
  trace : list Effect;
  timers : list (Task * Z);
  ticks : nat;
  sockets : nat
}.

Definition emit (e : Effect) : M World unit :=
  modify (fun w => {| self := self w; trace := trace w ++ [e]; timers := timers w;
                      ticks := ticks w; sockets := sockets w |}).

Definition update (f : ImvuService -> ImvuService) : M World unit :=
  modify (fun w => {| self := f (self w); trace := trace w; timers := timers w;
                      ticks := ticks w; sockets := sockets w |}).

Definition this : M World ImvuService :=
  let* w := read in ret (self w).

(** [new Date().toLocaleTimeString()]. *)
Definition clock (env : Env) : M World string :=
  fun w => (Ret (toLocaleTimeString env (ticks w)),
            {| self := self w; trace := trace w; timers := timers w;
               ticks := S (ticks w); sockets := sockets w |}).

Definition invoke (cb : Callback) (args : list Value) : M World unit :=
  emit (Invoke cb args).

Definition fetch (env : Env) (resource : string) (init : option RequestInit)
    : M World Response :=
  exec emit (Fetch resource init) in
  lift (network env resource init).

Definition setTimeout (task : Task) (ms : Z) : M World unit :=
  exec emit (SetTimeout task ms) in
  modify (fun w => {| self := self w; trace := trace w; timers := timers w ++ [(task, ms)];
                      ticks := ticks w; sockets := sockets w |}).

Definition newWebSocket (env : Env) (address : string) : M World WebSocket :=
  fun w =>
    let w' := {| self := self w; trace := trace w ++ [NewWebSocket address];
                 timers := timers w; ticks := ticks w; sockets := S (sockets w) |} in
    match construct env (sockets w) with
    | Ret _ => (Ret {| url := address; serial := sockets w |}, w')
    | Throw e => (Throw e, w')
    end.

(** [log(logMessage)]: the time is read first; the line is built, and the
    message converted, only when a handler is registered. *)
Definition log (env : Env) (logMessage : Value) : M World unit :=
  let* timestamp := clock env in
  let* service := this in
  match logCallback service with
  | Some cb =>
      let* shown := lift (toString (numberToString env) logMessage) in
      invoke cb [VStr ("[" +:+ timestamp +:+ "] " +:+ shown)]
  | None => ret tt
  end.

Definition say (env : Env) (line : string) : M World unit := log env (VStr line).

(** [v === 'literal']. *)
Definition strictEquals (v : Value) (literal : string) : bool :=
  match v with
  | VStr s => String.eqb s literal
  | _ => false
  end.

(** *** The handlers installed on the socket *)

Definition onopen (env : Env) : M World unit :=
  say env "[WebSocket] Connected to backend server".

Definition onmessage (env : Env) (event_data : string) : M World unit :=
  let* data := lift (JSON_parse env event_data) in
  let* type := lift (get data "type") in
  let* service := this in
  if strictEquals type "message" then
    match messageCallback service with
    | Some cb =>
        let* payload := lift (get data "data") in
        invoke cb [payload]
    | None => ret tt
    end
  else if strictEquals type "user_joined" then
    match userJoinedCallback service with
    | Some cb =>
        let* payload := lift (get data "data") in
        let* roomId := lift (get payload "roomId") in
        let* payload' := lift (get data "data") in
        let* user := lift (get payload' "user") in
        invoke cb [roomId; user]
    | None => ret tt
    end
  else if strictEquals type "user_left" then
    match userLeftCallback service with
    | Some cb =>
        let* payload := lift (get data "data") in
        let* roomId := lift (get payload "roomId") in
        let* payload' := lift (get data "data") in
        let* userId := lift (get payload' "userId") in
        let* payload'' := lift (get data "data") in
        let* username := lift (get payload'' "username") in
        invoke cb [roomId; userId; username]
    | None => ret tt
    end
  else if strictEquals type "log" then
    let* payload := lift (get data "data") in
    log env payload
  else ret tt.

Definition onerror (env : Env) (error : Error) : M World unit :=
  exec say env "[WebSocket] Error connecting to backend" in
  emit (ConsoleError "WebSocket error:" error).

Definition onclose (env : Env) : M World unit :=
  exec say env "[WebSocket] Disconnected from backend. Reconnecting in 3s..." in
  setTimeout Reconnect 3000.

(** The four handlers are the same closures on every socket, so assigning
    them leaves nothing to record beyond the socket itself. *)
Definition connectWebSocket (env : Env) : M World unit :=
  try_catch
    (let* socket := newWebSocket env WS_URL in
     update (fun s => {| messageCallback := messageCallback s; logCallback := logCallback s;
                         userJoinedCallback := userJoinedCallback s;
                         userLeftCallback := userLeftCallback s; ws := Some socket |}))
    (fun error =>
       exec say env "[WebSocket] Failed to connect. Make sure backend is running on port 3001" in
       emit (ConsoleError "WebSocket connection error:" error)).

Definition blank : World :=
  {| self := {| messageCallback := None; logCallback := None; userJoinedCallback := None;
                userLeftCallback := None; ws := None |};
     trace := []; timers := []; ticks := 0; sockets := 0 |}.

(** [new ImvuService()]. *)
Definition constructor (env : Env) : M World unit := connectWebSocket env.

Definition onMessage (callback : Callback) : M World unit :=
  update (fun s => {| messageCallback := Some callback; logCallback := logCallback s;
                      userJoinedCallback := userJoinedCallback s;
                      userLeftCallback := userLeftCallback s; ws := ws s |}).

Definition onLog (callback : Callback) : M World unit :=
  update (fun s => {| messageCallback := messageCallback s; logCallback := Some callback;
                      userJoinedCallback := userJoinedCallback s;
                      userLeftCallback := userLeftCallback s; ws := ws s |}).

Definition onUserJoined (callback : Callback) : M World unit :=
  update (fun s => {| messageCallback := messageCallback s; logCallback := logCallback s;
                      userJoinedCallback := Some callback;
                      userLeftCallback := userLeftCallback s; ws := ws s |}).

Definition onUserLeft (callback : Callback) : M World unit :=
  update (fun s => {| messageCallback := messageCallback s; logCallback := logCallback s;
                      userJoinedCallback := userJoinedCallback s;
                      userLeftCallback := Some callback; ws := ws s |}).

(** *** The outbound operations *)

Definition jsonHeaders : list (string * string) :=
  [("Content-Type", "application/json")].

Definition post (payload : option string) : option RequestInit :=
  Some {| method := "POST";
          headers := match payload with Some _ => jsonHeaders | None => [] end;
          body := payload |}.

(** [!response.ok || !data.success]: the member is read only when the
    status is a success. *)
Definition unsuccessful (response : Response) (data : Value) : M World bool :=
  if negb (ok response) then ret true
  else
    let* success := lift (get data "success") in
    ret (negb (truthy success)).

(** The text interpolated for [data.error || 'Unknown error']. *)
Definition reason (env : Env) (data : Value) : M World string :=
  let* error := lift (get data "error") in
  lift (toString (numberToString env) (or_else error (VStr "Unknown error"))).

(** [password] is [None] when the argument is left out. *)
Definition login (env : Env) (botId username : string) (password : option string)
    : M World bool :=
  match (match password with
         | Some p => if truthy_string p then Some p else None
         | None => None
         end) with
  | None =>
      exec say env ("[" +:+ username +:+ "] Login failed: Password is required.") in
      ret false
  | Some password =>
      try_catch
        (exec say env ("[" +:+ username +:+ "] Attempting to login via backend...") in
         let* response :=
           fetch env (BACKEND_URL +:+ "/login")
             (post (Some (JSON_stringify env
                      (VObj [("username", VStr username); ("password", VStr password)])))) in
         let* data := lift (json response) in
         let* failed := unsuccessful response data in
         if failed then
           let* why := reason env data in
           exec say env ("[" +:+ username +:+ "] Login failed: " +:+ why) in
           ret false
         else
           exec say env ("[" +:+ username +:+ "] Successfully logged in!") in
           ret true)
        (fun error =>
           exec say env ("[" +:+ username +:+ "] Login failed: " +:+ message error
                           +:+ ". Is the backend running?") in
           exec emit (ConsoleError "Login error:" error) in
           ret false)
  end.

Definition logout (env : Env) (botId : string) : M World unit :=
  try_catch
    (let* _ := fetch env (BACKEND_URL +:+ "/bots/" +:+ botId +:+ "/logout") (post None) in
     say env ("[" +:+ botId +:+ "] Logged out"))
    (fun error =>
       exec say env ("[" +:+ botId +:+ "] Logout failed: " +:+ message error) in
       emit (ConsoleError "Logout error:" error)).

Record Room := { id : Value; name : Value }.

(** [rooms.map(room => ({ id: room.id, name: room.name }))]: only an array
    has a [map] to call. *)
Definition mapRooms (rooms : Value) : Outcome (list Room) :=
  match rooms with
  | VArr items =>
      (fix each (l : list Value) : Outcome (list Room) :=
         match l with
         | [] => Ret []
         | room :: rest =>
             match get room "id", get room "name" with
             | Throw e, _ => Throw e
             | Ret _, Throw e => Throw e
             | Ret i, Ret n =>
                 match each rest with
                 | Throw e => Throw e
                 | Ret more => Ret ({| id := i; name := n |} :: more)
                 end
             end
         end) items
  | VUndefined => Throw (TypeError "Cannot read properties of undefined (reading 'map')")
  | VNull => Throw (TypeError "Cannot read properties of null (reading 'map')")
  | _ => Throw (TypeError "data.rooms.map is not a function")
  end.

Definition getRooms (env : Env) (botId : string) : M World (list Room) :=
  try_catch
    (exec say env ("[" +:+ botId +:+ "] Fetching public rooms...") in
     let* response :=
       fetch env (BACKEND_URL +:+ "/bots/" +:+ botId +:+ "/rooms/search") None in
     let* data := lift (json response) in
     let* failed := unsuccessful response data in
     if failed then
       let* why := reason env data in
       exec say env ("[" +:+ botId +:+ "] Failed to fetch rooms: " +:+ why) in
       ret []
     else
       let* rooms := lift (get data "rooms") in
       lift (mapRooms rooms))
    (fun error =>
       exec say env ("[" +:+ botId +:+ "] Failed to fetch rooms: " +:+ message error) in
       exec emit (ConsoleError "Get rooms error:" error) in
       ret []).

(** The result is the [roomId] member as it came, or [null]. *)
Definition joinRoom (env : Env) (botId roomName : string) : M World Value :=
  try_catch
    (exec say env ("[" +:+ botId +:+ "] Joining room: " +:+ roomName +:+ "...") in
     let* response :=
       fetch env (BACKEND_URL +:+ "/bots/" +:+ botId +:+ "/rooms/join")
         (post (Some (JSON_stringify env (VObj [("room", VStr roomName)])))) in
     let* data := lift (json response) in
     let* failed := unsuccessful response data in
     if failed then
       let* why := reason env data in
       exec say env ("[" +:+ botId +:+ "] Failed to join room: " +:+ why) in
       ret VNull
     else
       lift (get data "roomId"))
    (fun error =>
       exec say env ("[" +:+ botId +:+ "] Failed to join room: " +:+ message error) in
       exec emit (ConsoleError "Join room error:" error) in
       ret VNull).

Definition leaveRoom (env : Env) (botId roomId : string) : M World unit :=
  try_catch
    (let* _ := fetch env (BACKEND_URL +:+ "/bots/" +:+ botId +:+ "/rooms/" +:+ roomId
                            +:+ "/leave") (post None) in
     say env ("[" +:+ botId +:+ "] Left room " +:+ roomId))
    (fun error =>
       exec say env ("[" +:+ botId +:+ "] Failed to leave room: " +:+ message error) in
       emit (ConsoleError "Leave room error:" error)).

Definition sendMessage (env : Env) (botId roomId text : string) : M World unit :=
  try_catch
    (let* _ := fetch env (BACKEND_URL +:+ "/bots/" +:+ botId +:+ "/rooms/" +:+ roomId
                            +:+ "/send")
                 (post (Some (JSON_stringify env (VObj [("message", VStr text)])))) in
     ret tt)
    (fun error =>
       exec say env ("[" +:+ botId +:+ "] Failed to send message: " +:+ message error) in
       emit (ConsoleError "Send message error:" error)).

(** *** The event loop around the connector *)

Inductive Event :=
| SocketOpen
| SocketMessage (data : string)
| SocketError (error : Error)
| SocketClose
| TimerDue.

Definition run (task : Task) (env : Env) : M World unit :=
  match task with
  | Reconnect => connectWebSocket env
  end.

(** A due timer is taken off the list and its function called. *)
Definition fire (env : Env) : M World unit :=
  let* w := read in
  match timers w with
  | [] => ret tt
  | (task, _) :: later =>
      exec modify (fun w => {| self := self w; trace := trace w; timers := later;
                               ticks := ticks w; sockets := sockets w |}) in
      run task env
  end.

Definition dispatch (env : Env) (ev : Event) : M World unit :=
  match ev with
  | SocketOpen => onopen env
  | SocketMessage data => onmessage env data
  | SocketError error => onerror env error
  | SocketClose => onclose env
  | TimerDue => fire env
  end.

(** The loop goes on after a handler that threw. *)
Fixpoint loop (env : Env) (evs : list Event) (w : World) : World :=
  match evs with
  | [] => w
  | ev :: rest => loop env rest (snd (dispatch env ev w))
  end.

(** *** Notions used to state the properties *)

(** The store after [say env line]: the clock was read once, and the
    handler of the log slot, when there is one, was called with the
    stamped line. *)
Definition logged (env : Env) (line : string) (w : World) : World :=
  {| self := self w;
     trace := match logCallback (self w) with
              | Some cb =>
                  trace w ++ [Invoke cb
                    [VStr ("[" +:+ toLocaleTimeString env (ticks w) +:+ "] " +:+ line)]]
              | None => trace w
              end;
     timers := timers w;
     ticks := S (ticks w);
     sockets := sockets w |}.

(** A response reports success when its status does and its body is JSON
    with a truthy [success] member. *)
Definition succeeded (response : Response) : bool :=
  ok response &&
  match json response with
  | Ret data =>
      match get data "success" with
      | Ret success => truthy success
      | Throw _ => false
      end
  | Throw _ => false
  end.

(** A call fails when it is rejected (a network error) or answered by a
    response that does not report success. *)
Definition failedCall (answer : Outcome Response) : bool :=
  match answer with
  | Ret response => negb (succeeded response)
  | Throw _ => true
  end.

Definition returned {A : Type} (run : Outcome A * World) : Prop :=
  exists a, fst run = Ret a.

(** The timers a trace shows being set, in order, and the number of
    sockets it shows being constructed. *)
Fixpoint timeouts (t : list Effect) : list (Task * Z) :=
  match t with
  | [] => []
  | SetTimeout task ms :: rest => (task, ms) :: timeouts rest
  | _ :: rest => timeouts rest
  end.

Fixpoint attempts (t : list Effect) : nat :=
  match t with
  | [] => 0
  | NewWebSocket _ :: rest => S (attempts rest)
  | _ :: rest => attempts rest
  end.

Definition isFetch (e : Effect) : bool :=
  match e with
  | Fetch _ _ => true
  | _ => false
  end.

Definition isInvoke (e : Effect) : bool :=
  match e with
  | Invoke _ _ => true
  | _ => false
  end.

(** The socket closes and, three seconds later, its timer is due. *)
Definition closeCycle (env : Env) (w : World) : World :=
  loop env [SocketClose; TimerDue] w.

(** Sample inputs: a backend that cannot be reached, one that refuses, a
    connector with a handler in every slot, and two frames. *)
Definition quoted (s : string) : string := dquote +:+ s +:+ dquote.

Definition pingFrame : string :=
  "{" +:+ quoted "type" +:+ ":" +:+ quoted "ping" +:+ "," +:+ quoted "data" +:+ ":1}".

Definition parseSample (source : string) : Outcome Value :=
  if String.eqb source pingFrame
  then Ret (VObj [("type", VStr "ping"); ("data", VNum 1)])
  else if String.eqb source "null" then Ret VNull
  else Throw {| kind := "SyntaxError"; message := "Unexpected token" |}.

Definition unreachable : Env :=
  {| toLocaleTimeString := fun _ => "10:15:00";
     numberToString := fun _ => "0";
     JSON_parse := parseSample;
     JSON_stringify := fun _ => "{}";
     network := fun _ _ => Throw (TypeError "Failed to fetch");
     construct := fun _ => Ret tt |}.

Definition refusing : Env :=
  {| toLocaleTimeString := fun _ => "10:15:00";
     numberToString := fun _ => "0";
     JSON_parse := parseSample;
     JSON_stringify := fun _ => "{}";
     network := fun _ _ =>
       Ret {| ok := false;
              json := Ret (VObj [("success", VBool false); ("error", VStr "denied")]) |};
     construct := fun _ => Ret tt |}.

Definition subscribed : World :=
  {| self := {| messageCallback := Some {| tag := 1 |};
                logCallback := Some {| tag := 2 |};
                userJoinedCallback := Some {| tag := 3 |};
                userLeftCallback := Some {| tag := 4 |};
                ws := Some {| url := WS_URL; serial := 0 |} |};
     trace := []; timers := []; ticks := 0; sockets := 1 |}.

(** *** Notions used to state further properties *)


Fixpoint closes (evs : list Event) : nat :=
  match evs with
  | [] => 0
  | SocketClose :: rest => S (closes rest)
  | _ :: rest => closes rest
  end.

(** The four slots of the object. *)
Definition slots (s : ImvuService)
    : option Callback * option Callback * option Callback * option Callback :=
  (messageCallback s, logCallback s, userJoinedCallback s, userLeftCallback s).

(** The store once a request, or a call of a handler, is on the trace. *)
Definition asked (resource : string) (init : option RequestInit) (w : World) : World :=
  {| self := self w; trace := trace w ++ [Fetch resource init]; timers := timers w;
     ticks := ticks w; sockets := sockets w |}.

Definition delivered (cb : Callback) (args : list Value) (w : World) : World :=
  {| self := self w; trace := trace w ++ [Invoke cb args]; timers := timers w;
     ticks := ticks w; sockets := sockets w |}.

(** What an outbound operation may do, seen from a connector [s]: send a
    request, write to the console, call the handler of the log slot. *)
Definition benign (s : ImvuService) (e : Effect) : bool :=
  match e with
  | Invoke cb _ =>
      match logCallback s with
      | Some l => Nat.eqb (tag cb) (tag l)
      | None => false
      end
  | ConsoleError _ _ | Fetch _ _ => true
  | NewWebSocket _ | SetTimeout _ _ => false
  end.

Definition undisturbed (w w' : World) : Prop :=
  self w' = self w
  /\ timers w' = timers w
  /\ exists added, trace w' = (trace w ++ added)%list /\ forallb (benign (self w)) added = true.

(** What a handler that only reads and reports leaves in place. *)
Definition steady (w w' : World) : Prop :=
  self w' = self w
  /\ timers w' = timers w
  /\ attempts (trace w') = attempts (trace w)
  /\ timeouts (trace w') = timeouts (trace w).


Definition nullish (v : Value) : bool :=
  match v with
  | VUndefined | VNull => true
  | _ => false
  end.

(** More sample inputs: frames, a backend that accepts, and a runtime
    whose socket constructor throws. *)
Definition chatFrame : string :=
  "{" +:+ quoted "type" +:+ ":" +:+ quoted "message" +:+ "," +:+ quoted "data" +:+ ":"
      +:+ quoted "hello" +:+ "}".

Definition joinedFrame : string := "{" +:+ quoted "type" +:+ ":" +:+ quoted "user_joined" +:+ "}".

Definition noticeFrame : string :=
  "{" +:+ quoted "type" +:+ ":" +:+ quoted "log" +:+ "," +:+ quoted "data" +:+ ":"
      +:+ quoted "bot ready" +:+ "}".

Definition parseFrames (source : string) : Outcome Value :=
  if String.eqb source chatFrame
  then Ret (VObj [("type", VStr "message"); ("data", VStr "hello")])
  else if String.eqb source joinedFrame then Ret (VObj [("type", VStr "user_joined")])
  else if String.eqb source noticeFrame
  then Ret (VObj [("type", VStr "log"); ("data", VStr "bot ready")])
  else if String.eqb source "null" then Ret VNull
  else Throw {| kind := "SyntaxError"; message := "Unexpected token" |}.

Definition lobby : Value :=
  VObj [("id", VStr "room-1"); ("name", VStr "Lobby"); ("occupancy", VNum 3)].

Definition beach : Value := VObj [("id", VStr "room-2"); ("name", VStr "Beach")].

Definition accepted : list (string * Value) :=
  [("success", VBool true); ("roomId", VStr "room-1"); ("rooms", VArr [lobby; beach])].

Definition accepting : Env :=
  {| toLocaleTimeString := fun _ => "10:15:00";
     numberToString := fun _ => "3";
     JSON_parse := parseFrames;
     JSON_stringify := fun _ => "{}";
     network := fun _ _ => Ret {| ok := true; json := Ret (VObj accepted) |};
     construct := fun _ => Ret tt |}.

Definition holed : list (string * Value) :=
  [("success", VBool true); ("rooms", VArr [lobby; VNull; beach])].

Definition careless : Env :=
  {| toLocaleTimeString := fun _ => "10:15:00";
     numberToString := fun _ => "3";
     JSON_parse := parseFrames;
     JSON_stringify := fun _ => "{}";
     network := fun _ _ => Ret {| ok := true; json := Ret (VObj holed) |};
     construct := fun _ => Throw {| kind := "SecurityError"; message := "insecure" |} |}.

End Imvu.

(** ** The backend connector with handlers that may throw *)

(** [Imvu] above takes every call of a registered handler to return. A
    handler is code of the subscriber, and the connector calls it with no
    guard of its own: in [log], which every operation and every catch
    handler goes through, and in the dispatch of frames. Here the same class
    is embedded with the outcome of each call left to the subscriber. A
    handler is still taken not to call back into the connector. *)

Module Subscribed.
Import Imvu.

(** What the handler [cb] does when called with these arguments in this
    store: it returns, or it throws. *)
Definition Reaction := Callback -> list Value -> World -> Outcome unit.

Section Connector.
Variable react : Reaction.

(** The call is on the trace whether the handler returns or throws. *)
Definition invoke (cb : Callback) (args : list Value) : M World unit :=
  exec emit (Invoke cb args) in
  fun w => (react cb args w, w).

(** [log(logMessage)]: the time is read first; the line is built, and the
    message converted, only when a handler is registered. *)
Definition log (env : Env) (logMessage : Value) : M World unit :=
  let* timestamp := clock env in
  let* service := this in
  match logCallback service with
  | Some cb =>
      let* shown := lift (toString (numberToString env) logMessage) in
      invoke cb [VStr ("[" +:+ timestamp +:+ "] " +:+ shown)]
  | None => ret tt
  end.

Definition say (env : Env) (line : string) : M World unit := log env (VStr line).

Definition onopen (env : Env) : M World unit :=
  say env "[WebSocket] Connected to backend server".

Definition onmessage (env : Env) (event_data : string) : M World unit :=
  let* data := lift (JSON_parse env event_data) in
  let* type := lift (get data "type") in
  let* service := this in
  if strictEquals type "message" then
    match messageCallback service with
    | Some cb =>
        let* payload := lift (get data "data") in
        invoke cb [payload]
    | None => ret tt
    end
  else if strictEquals type "user_joined" then
    match userJoinedCallback service with
    | Some cb =>
        let* payload := lift (get data "data") in
        let* roomId := lift (get payload "roomId") in
        let* payload' := lift (get data "data") in
        let* user := lift (get payload' "user") in
        invoke cb [roomId; user]
    | None => ret tt
    end
  else if strictEquals type "user_left" then
    match userLeftCallback service with
    | Some cb =>
        let* payload := lift (get data "data") in
        let* roomId := lift (get payload "roomId") in
        let* payload' := lift (get data "data") in
        let* userId := lift (get payload' "userId") in
        let* payload'' := lift (get data "data") in
        let* username := lift (get payload'' "username") in
        invoke cb [roomId; userId; username]
    | None => ret tt
    end
  else if strictEquals type "log" then
    let* payload := lift (get data "data") in
    log env payload
  else ret tt.

Definition onerror (env : Env) (error : Error) : M World unit :=
  exec say env "[WebSocket] Error connecting to backend" in
  emit (ConsoleError "WebSocket error:" error).

Definition onclose (env : Env) : M World unit :=
  exec say env "[WebSocket] Disconnected from backend. Reconnecting in 3s..." in
  setTimeout Reconnect 3000.

(** The four handlers are the same closures on every socket, so assigning
    them leaves nothing to record beyond the socket itself. *)
Definition connectWebSocket (env : Env) : M World unit :=
  try_catch
    (let* socket := newWebSocket env WS_URL in
     update (fun s => {| messageCallback := messageCallback s; logCallback := logCallback s;
                         userJoinedCallback := userJoinedCallback s;
                         userLeftCallback := userLeftCallback s; ws := Some socket |}))
    (fun error =>
       exec say env "[WebSocket] Failed to connect. Make sure backend is running on port 3001" in
       emit (ConsoleError "WebSocket connection error:" error)).

(** [new ImvuService()]. *)
Definition constructor (env : Env) : M World unit := connectWebSocket env.

(** [password] is [None] when the argument is left out. *)
Definition login (env : Env) (botId username : string) (password : option string)
    : M World bool :=
  match (match password with
         | Some p => if truthy_string p then Some p else None
         | None => None
         end) with
  | None =>
      exec say env ("[" +:+ username +:+ "] Login failed: Password is required.") in
      ret false
  | Some password =>
      try_catch
        (exec say env ("[" +:+ username +:+ "] Attempting to login via backend...") in
         let* response :=
           fetch env (BACKEND_URL +:+ "/login")
             (post (Some (JSON_stringify env
                      (VObj [("username", VStr username); ("password", VStr password)])))) in
         let* data := lift (json response) in
         let* failed := unsuccessful response data in
         if failed then
           let* why := reason env data in
           exec say env ("[" +:+ username +:+ "] Login failed: " +:+ why) in
           ret false
         else
           exec say env ("[" +:+ username +:+ "] Successfully logged in!") in
           ret true)
        (fun error =>
           exec say env ("[" +:+ username +:+ "] Login failed: " +:+ message error
                           +:+ ". Is the backend running?") in
           exec emit (ConsoleError "Login error:" error) in
           ret false)
  end.

Definition logout (env : Env) (botId : string) : M World unit :=
  try_catch
    (let* _ := fetch env (BACKEND_URL +:+ "/bots/" +:+ botId +:+ "/logout") (post None) in
     say env ("[" +:+ botId +:+ "] Logged out"))
    (fun error =>
       exec say env ("[" +:+ botId +:+ "] Logout failed: " +:+ message error) in
       emit (ConsoleError "Logout error:" error)).

Definition getRooms (env : Env) (botId : string) : M World (list Room) :=
  try_catch
    (exec say env ("[" +:+ botId +:+ "] Fetching public rooms...") in
     let* response :=
       fetch env (BACKEND_URL +:+ "/bots/" +:+ botId +:+ "/rooms/search") None in
     let* data := lift (json response) in
     let* failed := unsuccessful response data in
     if failed then
       let* why := reason env data in
       exec say env ("[" +:+ botId +:+ "] Failed to fetch rooms: " +:+ why) in
       ret []
     else
       let* rooms := lift (get data "rooms") in
       lift (mapRooms rooms))
    (fun error =>
       exec say env ("[" +:+ botId +:+ "] Failed to fetch rooms: " +:+ message error) in
       exec emit (ConsoleError "Get rooms error:" error) in
       ret []).

(** The result is the [roomId] member as it came, or [null]. *)
Definition joinRoom (env : Env) (botId roomName : string) : M World Value :=
  try_catch
    (exec say env ("[" +:+ botId +:+ "] Joining room: " +:+ roomName +:+ "...") in
     let* response :=
       fetch env (BACKEND_URL +:+ "/bots/" +:+ botId +:+ "/rooms/join")
         (post (Some (JSON_stringify env (VObj [("room", VStr roomName)])))) in
     let* data := lift (json response) in
     let* failed := unsuccessful response data in
     if failed then
       let* why := reason env data in
       exec say env ("[" +:+ botId +:+ "] Failed to join room: " +:+ why) in
       ret VNull
     else
       lift (get data "roomId"))
    (fun error =>
       exec say env ("[" +:+ botId +:+ "] Failed to join room: " +:+ message error) in
       exec emit (ConsoleError "Join room error:" error) in
       ret VNull).

Definition leaveRoom (env : Env) (botId roomId : string) : M World unit :=
  try_catch
    (let* _ := fetch env (BACKEND_URL +:+ "/bots/" +:+ botId +:+ "/rooms/" +:+ roomId
                            +:+ "/leave") (post None) in
     say env ("[" +:+ botId +:+ "] Left room " +:+ roomId))
    (fun error =>
       exec say env ("[" +:+ botId +:+ "] Failed to leave room: " +:+ message error) in
       emit (ConsoleError "Leave room error:" error)).

Definition sendMessage (env : Env) (botId roomId text : string) : M World unit :=
  try_catch
    (let* _ := fetch env (BACKEND_URL +:+ "/bots/" +:+ botId +:+ "/rooms/" +:+ roomId
                            +:+ "/send")
                 (post (Some (JSON_stringify env (VObj [("message", VStr text)])))) in
     ret tt)
    (fun error =>
       exec say env ("[" +:+ botId +:+ "] Failed to send message: " +:+ message error) in
       emit (ConsoleError "Send message error:" error)).

Definition run (task : Task) (env : Env) : M World unit :=
  match task with
  | Reconnect => connectWebSocket env
  end.

(** A due timer is taken off the list and its function called. *)
Definition fire (env : Env) : M World unit :=
  let* w := read in
  match timers w with
  | [] => ret tt
  | (task, _) :: later =>
      exec modify (fun w => {| self := self w; trace := trace w; timers := later;
                               ticks := ticks w; sockets := sockets w |}) in
      run task env
  end.

Definition dispatch (env : Env) (ev : Event) : M World unit :=
  match ev with
  | SocketOpen => onopen env
  | SocketMessage data => onmessage env data
  | SocketError error => onerror env error
  | SocketClose => onclose env
  | TimerDue => fire env
  end.

(** The loop goes on after a handler that threw. *)
Fixpoint loop (env : Env) (evs : list Event) (w : World) : World :=
  match evs with
  | [] => w
  | ev :: rest => loop env rest (snd (dispatch env ev w))
  end.

(** The socket closes and, three seconds later, its timer is due. *)
Definition closeCycle (env : Env) (w : World) : World :=
  loop env [SocketClose; TimerDue] w.

End Connector.

(** *** Notions used to state the properties *)

(** The handler of the log slot, when there is one, returns whenever it is
    called. *)
Definition calm (react : Reaction) (s : ImvuService) : Prop :=
  forall cb, logCallback s = Some cb -> forall args w, react cb args w = Ret tt.

(** What [JSON.parse] can return: a value with no [undefined] in it. *)
Fixpoint wellFormed (v : Value) : bool :=
  match v with
  | VUndefined => false
  | VNull | VBool _ | VNum _ | VStr _ => true
  | VArr items => forallb wellFormed items
  | VObj members => forallb (fun kv => wellFormed (snd kv)) members
  end.

(** Sample subscribers: one whose handlers all return, one whose handlers
    all throw, and one whose log handler (the one tagged 2, as registered in
    [subscribed]) throws while the others return. *)
Definition returning : Reaction := fun _ _ _ => Ret tt.

Definition failing : Reaction :=
  fun _ _ _ => Throw {| kind := "Error"; message := "handler failed" |}.

Definition logFails : Reaction :=
  fun cb _ _ =>
    if Nat.eqb (tag cb) 2 then Throw {| kind := "Error"; message := "log failed" |}
    else Ret tt.

End Subscribed.

(** ** Properties of the arithmetic of doubles *)

Module DoubleSpec.
Import Double.
Local Open Scope Z_scope.

(** The model rounds as the machine does at the draws where an exact
    product would give another element or another wait. *)
Example floor_of_products :
  floor (mul sixTenths (ofZ 5)) = 3
  /\ floor (mul oneThird (ofZ 3)) = 1
  /\ floor (mul almostOne (ofZ 5)) = 4
  /\ add (ofZ 500) (mul almostOne (ofZ 500)) = {| mantissa := 1000 * 2 ^ 43; exponent := -43 |}.
Proof. repeat split. Qed.

(** With [d] bits dropped, the kept mantissa times 2^d is within half a unit
    of the exact integer. *)
Lemma nearest_close (m e : Z) :
  0 <= m ->
  let d := excess m e in
  let x := nearest m e in
  exponent x = e + d
  /\ 0 <= mantissa x
  /\ (d = 0 -> mantissa x = m)
  /\ (0 < d -> mantissa x * 2 ^ d <= m + 2 ^ (d - 1)
              /\ m <= mantissa x * 2 ^ d + 2 ^ (d - 1)).
Proof.
  intros Hm d x. subst x. unfold nearest. fold d.
  assert (Hd : 0 <= d) by (unfold d, excess; lia).
  cbn [exponent mantissa]. split; [reflexivity|].
  assert (Hpow : 0 < 2 ^ d) by (apply Z.pow_pos_nonneg; lia).
  pose proof (Z.div_mod m (2 ^ d) ltac:(lia)) as Hdm.
  pose proof (Z.mod_pos_bound m (2 ^ d) Hpow) as Hrest.
  assert (Hq : 0 <= m / 2 ^ d) by (apply Z.div_pos; lia).
  split; [destruct (_ && _); lia|].
  split.
  - intros H0. rewrite H0 in *. change (2 ^ 0) with 1 in *.
    rewrite Z.div_1_r. reflexivity.
  - intros Hpos.
    assert (Hhalf : 2 ^ d = 2 * 2 ^ (d - 1)).
    { rewrite <- Z.pow_succ_r by lia. f_equal. lia. }
    destruct (Z.ltb_spec 0 d); [|lia]. cbn [andb].
    destruct (Z.ltb_spec (2 ^ (d - 1)) (m mod 2 ^ d)); cbn [orb]; [nia|].
    destruct (Z.eqb_spec (m mod 2 ^ d) (2 ^ (d - 1))); cbn [andb].
    + destruct (Z.odd (m / 2 ^ d)); nia.
    + nia.
Qed.

Lemma log2_bounds (m : Z) : 0 < m -> 2 ^ Z.log2 m <= m < 2 ^ (Z.log2 m + 1).
Proof. intros H. pose proof (Z.log2_spec m H). replace (Z.log2 m + 1) with (Z.succ (Z.log2 m)) by lia. lia. Qed.

(** The draw: a representable double below one. *)
Lemma below_one (r : double) :
  unit r = true ->
  0 <= mantissa r < 2 ^ 53 /\ -1074 <= exponent r
  /\ (mantissa r = 0 \/ exponent r < 0 /\ 0 < mantissa r < 2 ^ (- exponent r)).
Proof.
  unfold unit. intros [Hrep Hlt]%andb_true_iff. revert Hrep Hlt.
  unfold representable, ltb, scaled, ofZ. cbn [mantissa exponent].
  intros Hrep Hlt. repeat (apply andb_true_iff in Hrep as [Hrep ?]).
  apply Z.ltb_lt in Hlt.
  repeat split; try lia.
  destruct (Z.le_gt_cases 0 (exponent r)) as [He|He].
  - left. rewrite Z.min_r in Hlt by lia. rewrite !Z.sub_0_r in Hlt.
    change (1 * 2 ^ 0) with 1 in Hlt.
    assert (0 < 2 ^ exponent r) by (apply Z.pow_pos_nonneg; lia). nia.
  - rewrite Z.min_l in Hlt by lia. rewrite Z.sub_diag in Hlt.
    change (2 ^ 0) with 1 in Hlt. rewrite Z.mul_1_r, Z.mul_1_l in Hlt.
    replace (0 - exponent r) with (- exponent r) in Hlt by lia.
    destruct (Z.eq_dec (mantissa r) 0); [left; assumption | right; lia].
Qed.

(** The rounded product of a draw below one and [n] is below [n]. *)
Lemma mul_below (r : double) (n : Z) :
  unit r = true -> 0 < n ->
  let y := mul r (ofZ n) in
  0 <= mantissa y
  /\ -1074 <= exponent y
  /\ (0 <= exponent y -> mantissa y * 2 ^ exponent y < n)
  /\ (exponent y < 0 -> mantissa y < n * 2 ^ (- exponent y)).
Proof.
  intros Hunit Hn.
  destruct (below_one r Hunit) as (Hm & He & Hcase).
  unfold mul, ofZ. cbn [mantissa exponent]. rewrite Z.add_0_r.
  set (m := mantissa r) in *. set (e := exponent r) in *.
  assert (HM : 0 <= m * n) by nia.
  destruct (nearest_close (m * n) e HM) as (Hexp & Hnonneg & Hexact & Hround).
  set (x := nearest (m * n) e) in *. set (d := excess (m * n) e) in *.
  assert (Hd : 0 <= d) by (unfold d, excess; lia).
  cbv zeta. rewrite Hexp. split; [assumption|]. split; [lia|].
  destruct Hcase as [H0 | (Hneg & Hpos & Hbelow)].
  - assert (d = 0) as Hd0.
    { unfold d, excess. rewrite H0, Z.mul_0_l. change (Z.log2 0) with 0. lia. }
    rewrite (Hexact Hd0), H0, !Z.mul_0_l, Hd0. split; intros Hs.
    + lia.
    + assert (0 < 2 ^ (- (e + 0))) by (apply Z.pow_pos_nonneg; lia). nia.
  - set (E := 2 ^ (- e)) in *.
    assert (HE : 0 < E) by (apply Z.pow_pos_nonneg; lia).
    assert (Hkey : mantissa x * 2 ^ d < n * E).
    { destruct (Z.eq_dec d 0) as [Hd0|Hd0].
      - rewrite (Hexact Hd0), Hd0. change (2 ^ 0) with 1. nia.
      - assert (0 < d) as Hdpos by lia. destruct (Hround Hdpos) as [Hup _].
        assert (d = Z.log2 (m * n) + 1 - 53) as Hdl by (unfold d, excess in *; lia).
        assert (0 < m * n) as HMpos by nia.
        pose proof (log2_bounds (m * n) HMpos) as [Hlo _].
        replace (Z.log2 (m * n)) with (53 + (d - 1)) in Hlo by lia.
        rewrite Z.pow_add_r in Hlo by lia.
        assert (0 < 2 ^ (d - 1)) by (apply Z.pow_pos_nonneg; lia).
        assert (2 ^ (d - 1) < n) by nia.
        nia. }
    assert (Hpd : 0 < 2 ^ d) by (apply Z.pow_pos_nonneg; lia).
    split; intros Hsign.
    + assert (Hsplit : 2 ^ d = 2 ^ (e + d) * E).
      { unfold E. rewrite <- Z.pow_add_r by lia. f_equal. lia. }
      assert (0 < 2 ^ (e + d)) by (apply Z.pow_pos_nonneg; lia).
      rewrite Hsplit in Hkey. nia.
    + assert (Hsplit : E = 2 ^ (- (e + d)) * 2 ^ d).
      { unfold E. rewrite <- Z.pow_add_r by lia. f_equal. lia. }
      assert (0 < 2 ^ (- (e + d))) by (apply Z.pow_pos_nonneg; lia).
      rewrite Hsplit in Hkey. nia.
Qed.

Lemma floor_mul_range (r : double) (n : Z) :
  unit r = true -> 0 < n ->
  0 <= floor (mul r (ofZ n)) < n.
Proof.
  intros Hunit Hn.
  destruct (mul_below r n Hunit Hn) as (Hnonneg & _ & Hpos & Hneg).
  unfold floor. destruct (Z.leb_spec 0 (exponent (mul r (ofZ n)))) as [Hs|Hs].
  - specialize (Hpos Hs).
    assert (0 < 2 ^ exponent (mul r (ofZ n))) by (apply Z.pow_pos_nonneg; lia). nia.
  - specialize (Hneg Hs).
    assert (0 < 2 ^ (- exponent (mul r (ofZ n)))) by (apply Z.pow_pos_nonneg; lia).
    split; [apply Z.div_pos; lia | apply Z.div_lt_upper_bound; lia].
Qed.

(** Rounding does not cross a number that needs no rounding. *)
Lemma nearest_grid (m e T : Z) :
  0 <= m ->
  let d := excess m e in
  (T * 2 ^ d <= m -> T <= mantissa (nearest m e))
  /\ (m <= T * 2 ^ d -> mantissa (nearest m e) <= T).
Proof.
  intros Hm d. unfold nearest. fold d. cbn [mantissa].
  assert (Hd : 0 <= d) by (unfold d, excess; lia).
  assert (Hpow : 0 < 2 ^ d) by (apply Z.pow_pos_nonneg; lia).
  pose proof (Z.div_mod m (2 ^ d) ltac:(lia)) as Hdm.
  pose proof (Z.mod_pos_bound m (2 ^ d) Hpow) as Hrest.
  split; intros HT.
  - assert (T <= m / 2 ^ d) by (apply Z.div_le_lower_bound; lia).
    destruct (_ && _); lia.
  - destruct (Z.ltb_spec 0 d) as [Hdpos|Hd0]; cbn [andb].
    + assert (0 < 2 ^ (d - 1)) by (apply Z.pow_pos_nonneg; lia).
      destruct (Z.eq_dec m (T * 2 ^ d)) as [Heq|Hne].
      * assert (m mod 2 ^ d = 0) as Hzero by (rewrite Heq; apply Z.mod_mul; lia).
        assert (m / 2 ^ d = T) as Hquot by (rewrite Heq; apply Z.div_mul; lia).
        rewrite Hzero, Hquot.
        destruct (Z.ltb_spec (2 ^ (d - 1)) 0); [lia|].
        destruct (Z.eqb_spec 0 (2 ^ (d - 1))); [lia|]. cbn [orb andb]. lia.
      * assert (m / 2 ^ d < T) by (apply Z.div_lt_upper_bound; lia).
        destruct (_ || _); lia.
    + assert (d = 0) as Hzero by lia. rewrite Hzero in *. change (2 ^ 0) with 1 in *.
      rewrite Z.div_1_r. lia.
Qed.

(** The wait of the mock branch, [500 + r * 500], is between 500 and 1000. *)
Lemma delay_range (r : double) :
  unit r = true ->
  let ms := add (ofZ 500) (mul r (ofZ 500)) in
  leb (ofZ 500) ms = true /\ leb ms (ofZ 1000) = true.
Proof.
  intros Hunit.
  destruct (mul_below r 500 Hunit ltac:(lia)) as (Hnonneg & Hmin & Hpos & Hneg).
  set (y := mul r (ofZ 500)) in *. cbv zeta. unfold add.
  change (exponent (ofZ 500)) with 0. set (e := Z.min 0 (exponent y)).
  set (A := 2 ^ (- e)).
  assert (He : e <= 0) by (unfold e; lia).
  assert (HA : 0 < A) by (apply Z.pow_pos_nonneg; lia).
  assert (H500 : scaled (ofZ 500) e = 500 * A).
  { unfold scaled, ofZ, A. cbn [mantissa exponent].
    replace (0 - e) with (- e) by lia. reflexivity. }
  assert (HY : 0 <= scaled y e < 500 * A).
  { unfold scaled, A. destruct (Z.le_gt_cases 0 (exponent y)) as [Hs|Hs].
    - replace e with 0 by (unfold e; lia). rewrite Z.sub_0_r. change (2 ^ (- 0)) with 1.
      specialize (Hpos Hs).
      assert (0 < 2 ^ exponent y) by (apply Z.pow_pos_nonneg; lia). nia.
    - replace e with (exponent y) by (unfold e; lia). rewrite Z.sub_diag.
      change (2 ^ 0) with 1. specialize (Hneg Hs). lia. }
  rewrite H500. set (S := 500 * A + scaled y e).
  assert (HS : 500 * A <= S < 1000 * A) by (unfold S; lia).
  assert (HS0 : 0 <= S) by lia.
  destruct (nearest_close S e HS0) as (Hexp & Hx0 & Hexact & _).
  set (d := excess S e) in *. set (x := nearest S e) in *.
  assert (Hd : 0 <= d) by (unfold d, excess; lia).
  assert (Hsum : e + d <= 0).
  { destruct (Z.eq_dec d 0) as [Hd0|Hd0]; [lia|].
    assert (d = Z.log2 S + 1 - 53) as Hdl by (unfold d, excess, e in *; lia).
    pose proof (log2_bounds S ltac:(lia)) as [Hlo _].
    assert (2 ^ Z.log2 S < 2 ^ (10 - e)).
    { unfold A in HS. replace (10 - e) with (10 + - e) by lia.
      rewrite Z.pow_add_r by lia. change (2 ^ 10) with 1024. lia. }
    assert (Z.log2 S < 10 - e).
    { apply (Z.pow_lt_mono_r_iff 2); lia. }
    lia. }
  set (B := 2 ^ (- (e + d))).
  assert (HB : 0 < B) by (apply Z.pow_pos_nonneg; lia).
  assert (HAB : A = B * 2 ^ d).
  { unfold A, B. rewrite <- Z.pow_add_r by lia. f_equal. lia. }
  destruct (nearest_grid S e (500 * B) HS0) as [Hlow _].
  destruct (nearest_grid S e (1000 * B) HS0) as [_ Hhigh].
  fold d x in Hlow, Hhigh.
  assert (500 * B <= mantissa x) by (apply Hlow; nia).
  assert (mantissa x <= 1000 * B) by (apply Hhigh; nia).
  unfold leb, scaled. rewrite Hexp. change (exponent (ofZ 500)) with 0.
  change (exponent (ofZ 1000)) with 0. cbn [mantissa ofZ].
  rewrite (Z.min_r 0 (e + d)), (Z.min_l (e + d) 0) by lia.
  rewrite Z.sub_diag. change (2 ^ 0) with 1.
  replace (0 - (e + d)) with (- (e + d)) by lia. fold B.
  split; apply Z.leb_le; lia.
Qed.

End DoubleSpec.

(** ** Properties of the response generator *)

Module GeminiSpec.
Import Gemini.

(** *** The definitions at work *)

Example slice_keeps_the_end : slice (-10) (seq 1 12) = seq 3 10.
Proof. reflexivity. Qed.

Example slice_short_array : slice (-10) [1; 2; 3]%nat = [1; 2; 3]%nat.
Proof. reflexivity. Qed.

Example historyText_two_lines :
  historyText [{| author := "Bob"; authorId := "u-7"; text := "hi" |};
               {| author := "Ann"; authorId := "u-9"; text := "yo" |}]
  = "Bob: hi" +:+ nl +:+ "Ann: yo".
Proof. reflexivity. Qed.

Example summarizeRoom_greeting :
  fst (summarizeRoom greeting start)
  = Ret ("The last message was from Bob: " +:+ dquote +:+ "hi" +:+ dquote
           +:+ ". The conversation seems casual.").
Proof. reflexivity. Qed.

Example getApiKey_prefers_vite :
  getApiKey {| importMetaEnv := Some (Some "v"); process := Process (Some (Some "p")) |}
  = Ret "v"
  /\ getApiKey {| importMetaEnv := Some (Some EmptyString);
                  process := Process (Some (Some "p")) |} = Ret "p"
  /\ getApiKey {| importMetaEnv := None; process := Process None |} = Ret EmptyString
  /\ getApiKey page
     = Throw {| kind := "ReferenceError"; Js.message := "process is not defined" |}.
Proof. repeat split. Qed.

Example trim_samples :
  trim ("  a b " +:+ nl) = "a b"
  /\ trim (nbsp +:+ "hi" +:+ bom) = "hi"
  /\ trim (nbsp +:+ " " +:+ nl +:+ bom) = EmptyString
  /\ trim ("a" +:+ nbsp +:+ "b") = "a" +:+ nbsp +:+ "b".
Proof. repeat split. Qed.

Example mock_run :
  generateBotResponse offline plain greeting "Alice" "gpt" start
  = (Ret (Some "cool"),
     {| trace := [Timeout {| Double.mantissa := 1500; Double.exponent := -1 |}];
        draws := 2 |}).
Proof. reflexivity. Qed.

(** After [bruno] has spoken, [alice] is next, and the other way round. *)
Example coordinateDialogue_alternates :
  botToSpeak <$> (match fst (coordinateDialogue offline alice bruno
                    [{| author := "Bruno"; authorId := "bot-b"; text := "idk" |}] start) with
                  | Ret turn => Some turn
                  | Throw _ => None
                  end) = Some "bot-a"
  /\ botToSpeak <$> (match fst (coordinateDialogue offline alice bruno
                       [{| author := "Alice"; authorId := "bot-a"; text := "cool" |}] start) with
                     | Ret turn => Some turn
                     | Throw _ => None
                     end) = Some "bot-b".
Proof. split; reflexivity. Qed.

(** *** Auxiliary facts *)

Lemma append_assoc (a b c : string) : (a +:+ b) +:+ c = a +:+ b +:+ c.
Proof.
  induction a as [|ch a IH]; [reflexivity|].
  change (String ch ((a +:+ b) +:+ c) = String ch (a +:+ b +:+ c)).
  now rewrite IH.
Qed.

Lemma slice_last_ten (history : list Message) :
  slice (-10) history = lastEntries 10 history.
Proof.
  unfold slice, lastEntries. f_equal.
  change (-10 <? 0)%Z with true. cbv iota. lia.
Qed.

Lemma lastEntries_length (n : nat) (history : list Message) :
  length (lastEntries n history) = min n (length history).
Proof. unfold lastEntries. rewrite length_drop. lia. Qed.

Lemma lastEntries_suffix (n : nat) (history : list Message) :
  (take (length history - n) history ++ lastEntries n history)%list = history.
Proof. apply take_drop. Qed.

Lemma lastEntries_app (n : nat) (older recent : list Message) :
  length recent = n -> lastEntries n (older ++ recent)%list = recent.
Proof.
  intros Hn. unfold lastEntries. rewrite length_app.
  replace (length older + length recent - n)%nat with (length older) by lia.
  now rewrite drop_app_length.
Qed.

(** Every run of the generator returns: the mock branch has nothing that
    throws, and the other branch catches. *)
Lemma generateBotResponse_returns env personality history botName provider s :
  exists reply s',
    generateBotResponse env personality history botName provider s = (Ret reply, s').
Proof.
  unfold generateBotResponse.
  destruct (usesMock env provider).
  - destruct (String.eqb provider "gemini" && negb (truthy_string (API_KEY env))); eauto.
  - unfold try_catch, bind, lift, emit, modify, ret. simpl.
    destruct (generateContent env _ _) as [response|e]; [|eauto].
    destruct (Sdk.text response); simpl; eauto.
Qed.

(** Without a key there is no client, so the first and third tests of the
    condition agree. *)
Lemma usesMock_true env provider :
  provider = "gpt" \/ API_KEY env = EmptyString -> usesMock env provider = true.
Proof.
  unfold usesMock. intros [-> | ->]; [reflexivity|].
  simpl. now rewrite orb_true_r.
Qed.

Lemma usesMock_false env provider :
  provider <> "gpt" -> API_KEY env <> EmptyString -> usesMock env provider = false.
Proof.
  intros Hp Hk. unfold usesMock, ai, truthy_string.
  destruct (String.eqb_spec provider "gpt"); [contradiction|].
  destruct (String.eqb_spec (API_KEY env) EmptyString); [contradiction|].
  reflexivity.
Qed.

(** The element drawn from an array that is not empty, when the draw is a
    result of [Math.random()]. *)
Lemma randomElement_member env (arr : list string) s :
  Double.unit (random env (draws s)) = true ->
  arr <> [] ->
  exists element,
    randomElement env arr s
    = (Ret (Some element), {| trace := trace s; draws := S (draws s) |})
    /\ element ∈ arr.
Proof.
  intros Hunit Hsome. unfold randomElement, bind, mathRandom, ret.
  assert (Hlen : (0 < Z.of_nat (length arr))%Z) by (destruct arr; [contradiction | cbn; lia]).
  pose proof (DoubleSpec.floor_mul_range _ _ Hunit Hlen) as [Hlo Hhi].
  set (i := Double.floor _) in *. unfold index.
  destruct (Z.ltb_spec i 0); [lia|].
  destruct (arr !! Z.to_nat i) as [element|] eqn:Hat.
  - exists element. split; [reflexivity|]. eapply list_elem_of_lookup_2, Hat.
  - apply lookup_ge_None in Hat. lia.
Qed.

(** C3. The prompt is a fixed text before, the last [min 10 length]
    entries of the history each printed as [author: text] and joined by
    line breaks in their order, and a fixed text after. The two fixed
    texts are chosen before the history, so nothing of an entry older than
    the last ten reaches the prompt: the prompt of a history is the prompt
    of its last ten entries. *)
Theorem generatePrompt_last_ten personality botName :
  exists before after : string,
    forall history : list Message,
      let kept := lastEntries 10 history in
      length kept = min 10 (length history)
      /\ (take (length history - 10) history ++ kept)%list = history
      /\ generatePrompt personality history botName
           = before
             +:+ join nl (map (fun msg => author msg +:+ ": " +:+ text msg) kept)
             +:+ after
      /\ generatePrompt personality history botName
           = generatePrompt personality kept botName.
Proof.
  exists (join nl [
    EmptyString;
    "You are an IMVU chat bot named " +:+ botName
      +:+ ". Your personality is strictly defined by these traits:";
    "- Style: " +:+ style personality;
    "- Humor Level (0-100): " +:+ pretty (humor personality);
    "- Aggressiveness (0-100): " +:+ pretty (aggressiveness personality);
    "- Creativity (0-100): " +:+ pretty (creativity personality);
    "- Behavior: " +:+ behavior personality;
    "- Mode: " +:+ mode personality;
    "- Language: " +:+ language personality;
    EmptyString;
    "Based on this personality, you must continue the following conversation.";
    "Your response should be a single, short chat message. Do not use your name in the response.";
    EmptyString;
    "Conversation History:"] +:+ nl).
  exists (nl +:+ EmptyString +:+ nl +:+ botName +:+ ":").
  intros history kept. subst kept.
  split; [apply lastEntries_length|].
  split; [apply lastEntries_suffix|].
  assert (Hidem : historyText (lastEntries 10 history) = historyText history).
  { unfold historyText. rewrite !slice_last_ten. f_equal. f_equal.
    unfold lastEntries at 1. rewrite lastEntries_length.
    replace (min 10 (length history) - 10)%nat with 0%nat by lia. apply drop_0. }
  split.
  - unfold generatePrompt, historyText, renderMessage, join. rewrite slice_last_ten.
    cbn [String.concat]. rewrite !append_assoc. reflexivity.
  - unfold generatePrompt. now rewrite Hidem.
Qed.

(** C7. On an empty history [summarizeRoom] returns [The room is quiet.];
    on a history that ends with an entry it returns the sentence that
    names that entry's author and puts that entry's text between double
    quotes. *)
Theorem summarizeRoom_result (s : Store) :
  fst (summarizeRoom [] s) = Ret "The room is quiet."
  /\ forall (older : list Message) (lastMessage : Message),
       fst (summarizeRoom (older ++ [lastMessage])%list s)
       = Ret ("The last message was from " +:+ author lastMessage +:+ ": " +:+ dquote
                +:+ text lastMessage +:+ dquote +:+ ". The conversation seems casual.").
Proof.
  split; [reflexivity|].
  intros older lastMessage. unfold summarizeRoom, bind, sleep, emit, modify, ret.
  cbn [fst snd].
  rewrite length_app. cbn [length].
  replace (length older + 1 - 1)%nat with (length older) by lia.
  rewrite list_lookup_middle by reflexivity.
  destruct (Nat.eqb_spec (length older + 1) 0); [lia | reflexivity].
Qed.

(** C2, as the specification words it, fails: with two bots of different
    identifiers and an empty history the bot named to speak is not
    [botB]. *)
Lemma coordinateDialogue_empty_not_botB :
  ~ (forall env botA botB s,
       exists turn s',
         coordinateDialogue env botA botB [] s = (Ret turn, s')
         /\ botToSpeak turn = id botB).
Proof.
  intros claim.
  destruct (claim offline alice bruno start) as (turn & s' & Hrun & Hid).
  vm_compute in Hrun. injection Hrun as <- _. discriminate Hid.
Qed.

(** C2, amended. With an empty history the last speaker defaults to
    [botB], and the other bot, [botA], is the one named to speak first:
    the call returns, and its [botToSpeak] is the identifier of [botA]. *)
Theorem coordinateDialogue_empty_selects_botA env botA botB s :
  exists turn s',
    coordinateDialogue env botA botB [] s = (Ret turn, s')
    /\ botToSpeak turn = id botA.
Proof.
  unfold coordinateDialogue, bind, sleep, emit, modify, ret. cbn [length Nat.ltb Nat.leb].
  rewrite String.eqb_refl.
  destruct (generateBotResponse_returns env (personality botA) []
              (name botA) (aiProvider botA)
              {| trace := (trace s ++ [Timeout (Double.ofZ 1000)])%list; draws := draws s |})
    as (reply & s' & ->).
  eauto.
Qed.

(** C4. When the provider is ['gpt'] or no key is configured, and each
    result of [Math.random] is a double in [0, 1), [generateBotResponse]
    returns (it does not throw) one of the five filler phrases. The index is
    computed as the code computes it: the product is rounded to a double and
    then floored. *)
Theorem generateBotResponse_mock_phrase env personality history botName provider s :
  provider = "gpt" \/ API_KEY env = EmptyString ->
  (forall n, Double.unit (random env n) = true) ->
  exists phrase s',
    generateBotResponse env personality history botName provider s
      = (Ret (Some phrase), s')
    /\ phrase ∈ ["lol that's funny"; "idk"; "cool"; "what do you mean?"; "nice outfit!"].
Proof.
  intros Hmock Hrange. unfold generateBotResponse. rewrite (usesMock_true _ _ Hmock).
  destruct (String.eqb provider "gemini" && negb (truthy_string (API_KEY env)));
    cbv [bind emit modify ret mathRandom sleep];
    match goal with |- context [randomElement env mockResponses ?s0] =>
      destruct (randomElement_member env mockResponses s0 (Hrange _) ltac:(discriminate))
        as (phrase & -> & Hin) end; eauto.
Qed.

Lemma generateBotResponse_mock_phrase_witness :
  exists phrase s',
    generateBotResponse offline plain greeting "Alice" "gpt" start = (Ret (Some phrase), s')
    /\ phrase ∈ ["lol that's funny"; "idk"; "cool"; "what do you mean?"; "nice outfit!"].
Proof.
  apply (generateBotResponse_mock_phrase offline plain greeting "Alice" "gpt" start).
  - left. reflexivity.
  - intros n. reflexivity.
Defined.

(** C5. With a provider other than ['gpt'] and a key configured, a
    completion call that throws is caught: [generateBotResponse] returns
    the apology [I'm not sure what to say.]. *)
Theorem generateBotResponse_catches env personality history botName provider s error :
  provider <> "gpt" ->
  API_KEY env <> EmptyString ->
  generateContent env "gemini-2.5-flash" (generatePrompt personality history botName)
    = Throw error ->
  exists s',
    generateBotResponse env personality history botName provider s
      = (Ret (Some "I'm not sure what to say."), s').
Proof.
  intros Hp Hk Hfail. unfold generateBotResponse. rewrite (usesMock_false _ _ Hp Hk).
  unfold try_catch, bind, lift, emit, modify, ret. rewrite Hfail. eauto.
Qed.

Lemma generateBotResponse_catches_witness :
  exists s',
    generateBotResponse keyed plain greeting "Alice" "gemini" start
      = (Ret (Some "I'm not sure what to say."), s').
Proof.
  apply (generateBotResponse_catches keyed plain greeting "Alice" "gemini" start
           (TypeError "fetch failed")).
  - discriminate.
  - discriminate.
  - reflexivity.
Defined.

(** C10. When the provider is ['gpt'] or no key is configured, two runs
    in the same environment from the same store, so with the same draws
    of [Math.random], give the same reply and leave the same store
    whatever the personality, history and bot name of each. *)
Theorem generateBotResponse_mock_independent env provider s
    personality1 history1 botName1 personality2 history2 botName2 :
  provider = "gpt" \/ API_KEY env = EmptyString ->
  generateBotResponse env personality1 history1 botName1 provider s
    = generateBotResponse env personality2 history2 botName2 provider s.
Proof.
  intros Hmock. unfold generateBotResponse. now rewrite (usesMock_true _ _ Hmock).
Qed.

Lemma generateBotResponse_mock_independent_witness :
  generateBotResponse offline plain greeting "Alice" "gemini" start
    = generateBotResponse offline terse [] "Bruno" "gemini" start.
Proof.
  apply (generateBotResponse_mock_independent offline "gemini" start
           plain greeting "Alice" terse [] "Bruno").
  right. reflexivity.
Defined.

End GeminiSpec.

(** ** Properties of the backend connector *)

Module ImvuSpec.
Import Imvu.

(** *** The definitions at work *)

Example login_refused_trace :
  login refusing "bot-a" "alice" (Some "secret") subscribed
  = (Ret false,
     {| self := self subscribed;
        trace := [Invoke {| tag := 2 |}
                    [VStr "[10:15:00] [alice] Attempting to login via backend..."];
                  Fetch "http://localhost:3001/login"
                    (Some {| method := "POST"; headers := jsonHeaders; body := Some "{}" |});
                  Invoke {| tag := 2 |} [VStr "[10:15:00] [alice] Login failed: denied"]];
        timers := []; ticks := 2; sockets := 1 |}).
Proof. reflexivity. Qed.

Example sendMessage_unreachable_trace :
  trace (snd (sendMessage unreachable "bot-a" "room-1" "hello" subscribed))
  = [Fetch "http://localhost:3001/bots/bot-a/rooms/room-1/send"
       (Some {| method := "POST"; headers := jsonHeaders; body := Some "{}" |});
     Invoke {| tag := 2 |}
       [VStr "[10:15:00] [bot-a] Failed to send message: Failed to fetch"];
     ConsoleError "Send message error:" (TypeError "Failed to fetch")].
Proof. reflexivity. Qed.

Example constructor_connects :
  constructor unreachable blank
  = (Ret tt,
     {| self := {| messageCallback := None; logCallback := None; userJoinedCallback := None;
                   userLeftCallback := None; ws := Some {| url := WS_URL; serial := 0 |} |};
        trace := [NewWebSocket "ws://localhost:3001/ws"];
        timers := []; ticks := 0; sockets := 1 |}).
Proof. reflexivity. Qed.

Example close_then_timer :
  trace (closeCycle unreachable subscribed)
  = [Invoke {| tag := 2 |}
       [VStr "[10:15:00] [WebSocket] Disconnected from backend. Reconnecting in 3s..."];
     SetTimeout Reconnect 3000;
     NewWebSocket "ws://localhost:3001/ws"]
  /\ timers (closeCycle unreachable subscribed) = [].
Proof. split; reflexivity. Qed.

Example toString_samples :
  toString (fun _ => "7") (VArr [VNum 7; VNull; VStr "a"; VArr [VBool true]]) = Ret "7,,a,true"
  /\ toString (fun _ => "7") (VObj [("a", VNum 7)]) = Ret "[object Object]"
  /\ toString (fun _ => "7") (VObj [("toString", VNum 7)])
     = Throw (TypeError "Cannot convert object to primitive value").
Proof. repeat split. Qed.

(** *** Auxiliary facts *)

(** Logging a line never throws. *)
Lemma say_run env line w : say env line w = (Ret tt, logged env line w).
Proof.
  unfold say, log, logged.
  cbv [bind clock this read ret lift invoke emit modify toString].
  cbn [self trace timers ticks sockets].
  destruct (logCallback (self w)); reflexivity.
Qed.

Lemma logged_self env line w : self (logged env line w) = self w.
Proof. reflexivity. Qed.

Lemma logged_timers env line w : timers (logged env line w) = timers w.
Proof. reflexivity. Qed.

Lemma logged_trace env line w :
  exists added,
    trace (logged env line w) = (trace w ++ added)%list
    /\ forallb isInvoke added = true.
Proof.
  unfold logged. cbn [trace]. destruct (logCallback (self w)) as [cb|].
  - eexists [_]. split; reflexivity.
  - exists []. split; [now rewrite app_nil_r | reflexivity].
Qed.

Lemma strictEquals_other (v : Value) (literal : string) :
  v <> VStr literal -> strictEquals v literal = false.
Proof.
  intros Hne. destruct v; try reflexivity. cbn [strictEquals].
  destruct (String.eqb_spec s literal); [subst; contradiction | reflexivity].
Qed.

Lemma timeouts_app (t t' : list Effect) :
  timeouts (t ++ t') = (timeouts t ++ timeouts t')%list.
Proof.
  induction t as [|e t IH]; [reflexivity|].
  destruct e; cbn [timeouts app]; now rewrite ?IH.
Qed.

Lemma attempts_app (t t' : list Effect) :
  attempts (t ++ t') = (attempts t + attempts t')%nat.
Proof.
  induction t as [|e t IH]; [reflexivity|].
  destruct e; cbn [attempts app]; now rewrite ?IH.
Qed.

(** With handlers that return, [login] with the password left out or
    empty returns [false] and contacts nothing. *)
Lemma login_without_password env botId username password w :
  password = None \/ password = Some EmptyString ->
  exists w' added,
    login env botId username password w = (Ret false, w')
    /\ trace w' = (trace w ++ added)%list
    /\ forallb (fun e => negb (isFetch e)) added = true.
Proof.
  intros Hpw.
  assert (Hrun : login env botId username password w
                 = (Ret false,
                    logged env ("[" +:+ username +:+ "] Login failed: Password is required.") w)).
  { destruct Hpw as [-> | ->]; unfold login; cbn [truthy_string String.eqb negb];
      unfold bind; rewrite say_run; reflexivity. }
  rewrite Hrun. unfold logged. cbn [trace].
  destruct (logCallback (self w)) as [cb|].
  - eexists _, [_]. repeat split.
  - eexists _, []. repeat split. cbn [trace]. now rewrite app_nil_r.
Qed.

(** A frame that is the JSON literal [null] has no [type] to read: the
    handler throws, before any slot is looked at. *)
Remark onmessage_null_frame w :
  exists e, onmessage refusing "null" w = (Throw e, w).
Proof. eexists. reflexivity. Qed.

Lemma logged_timeouts env line w :
  timeouts (trace (logged env line w)) = timeouts (trace w).
Proof.
  unfold logged. cbn [trace]. destruct (logCallback (self w)); [|reflexivity].
  rewrite timeouts_app. cbn [timeouts]. now rewrite app_nil_r.
Qed.

Lemma logged_attempts env line w :
  attempts (trace (logged env line w)) = attempts (trace w).
Proof.
  unfold logged. cbn [trace]. destruct (logCallback (self w)); [|reflexivity].
  rewrite attempts_app. cbn [attempts]. lia.
Qed.

Lemma onclose_run env w :
  exists w',
    onclose env w = (Ret tt, w')
    /\ timeouts (trace w') = (timeouts (trace w) ++ [(Reconnect, 3000%Z)])%list
    /\ timers w' = (timers w ++ [(Reconnect, 3000%Z)])%list
    /\ attempts (trace w') = attempts (trace w).
Proof.
  unfold onclose, bind. rewrite say_run. cbv [setTimeout bind emit modify].
  cbn [self trace timers ticks sockets]. eexists. split; [reflexivity|].
  cbn [trace timers]. rewrite timeouts_app, attempts_app, logged_timeouts, logged_attempts.
  cbn [timeouts attempts]. repeat split. lia.
Qed.

(** One more socket is constructed, and no timer is set or taken. *)
Lemma connectWebSocket_run env w :
  let w' := snd (connectWebSocket env w) in
  timeouts (trace w') = timeouts (trace w)
  /\ attempts (trace w') = S (attempts (trace w))
  /\ timers w' = timers w.
Proof.
  unfold connectWebSocket, try_catch, bind, newWebSocket.
  destruct (construct env (sockets w)) as [[]|e].
  - cbv [update modify]. cbn [snd self trace timers ticks sockets].
    rewrite timeouts_app, attempts_app. cbn [timeouts attempts].
    rewrite app_nil_r. repeat split. lia.
  - rewrite say_run. cbv [emit modify]. cbn [snd self trace timers ticks sockets].
    rewrite !timeouts_app, !attempts_app, logged_timeouts, logged_attempts.
    cbn [trace timeouts attempts]. rewrite timeouts_app, attempts_app. cbn [timeouts attempts].
    rewrite !app_nil_r. repeat split. lia.
Qed.

Lemma closeCycle_run env w :
  timeouts (trace (closeCycle env w))
    = (timeouts (trace w) ++ [(Reconnect, 3000%Z)])%list
  /\ attempts (trace (closeCycle env w)) = S (attempts (trace w))
  /\ length (timers (closeCycle env w)) = length (timers w).
Proof.
  unfold closeCycle. cbn [loop dispatch].
  destruct (onclose_run env w) as (w1 & -> & Ht & Hp & Ha). cbn [snd].
  unfold fire, bind, read.
  destruct (timers w1) as [|[[] ms] later] eqn:Hw1.
  - destruct (timers w); discriminate Hp.
  - unfold modify, run.
    set (w2 := {| self := self w1; trace := trace w1; timers := later;
                  ticks := ticks w1; sockets := sockets w1 |}).
    destruct (connectWebSocket_run env w2) as (Ht2 & Ha2 & Hp2).
    rewrite Ht2, Ha2, Hp2. subst w2. cbn [trace timers].
    rewrite Ht, Ha. repeat split.
    apply (f_equal length) in Hp. rewrite length_app in Hp. cbn [length] in Hp. lia.
Qed.

(** With handlers that return, a close of the socket sets exactly one
    timer, for the reconnect and for 3000 ms; after any number [n] of
    closes, each followed by its timer, [n] timers were set, all alike, and
    [n] sockets were constructed. *)
Lemma onclose_schedules_one_reconnect env w :
  (exists w',
      onclose env w = (Ret tt, w')
      /\ timeouts (trace w') = (timeouts (trace w) ++ [(Reconnect, 3000%Z)])%list
      /\ timers w' = (timers w ++ [(Reconnect, 3000%Z)])%list)
  /\ forall n : nat,
       let w' := Nat.iter n (closeCycle env) w in
       timeouts (trace w') = (timeouts (trace w) ++ replicate n (Reconnect, 3000%Z))%list
       /\ attempts (trace w') = (attempts (trace w) + n)%nat.
Proof.
  split.
  - destruct (onclose_run env w) as (w' & Hrun & Ht & Hp & _). eauto.
  - induction n as [|n [IHt IHa]]; cbn [Nat.iter nat_rect].
    + cbn [replicate]. rewrite app_nil_r. split; [reflexivity | lia].
    + change (nat_rect _ w (fun _ => closeCycle env) n)
        with (Nat.iter n (closeCycle env) w) in *.
      destruct (closeCycle_run env (Nat.iter n (closeCycle env) w)) as (Ht & Ha & _).
      rewrite Ht, Ha. cbv zeta in IHt, IHa. rewrite IHt, IHa. split; [|lia].
      rewrite <- app_assoc. f_equal.
      change [(Reconnect, 3000%Z)] with (replicate 1 (Reconnect, 3000%Z)).
      rewrite <- replicate_add. f_equal. lia.
Qed.

(** Running an operation: logging steps are replaced by their result,
    the plumbing is unfolded, and each answer of the outside world is
    split into its cases. *)
Ltac run :=
  repeat first
    [ rewrite say_run
    | progress cbv [bind try_catch lift ret fetch emit modify unsuccessful reason throw]
    | progress cbn [fst snd negb] ].

Ltac cases :=
  repeat first
    [ progress run
    | match goal with
      | |- context [network ?env ?r ?i] => destruct (network env r i) eqn:?
      | |- context [json ?r] => destruct (json r) eqn:?
      | |- context [ok ?r] => destruct (ok r) eqn:?
      | |- context [match get ?d ?k with _ => _ end] => destruct (get d k) eqn:?
      | |- context [negb (truthy ?v)] => destruct (truthy v) eqn:?
      | |- context [match toString ?f ?v with _ => _ end] => destruct (toString f v) eqn:?
      | |- context [match mapRooms ?v with _ => _ end] => destruct (mapRooms v) eqn:?
      end ].

(** What a failed call leaves to the code that tests the response. *)
Lemma failedCall_response env resource init response data success :
  failedCall (network env resource init) = true ->
  network env resource init = Ret response ->
  ok response = true ->
  json response = Ret data ->
  get data "success" = Ret success ->
  truthy success = false.
Proof.
  intros Hfail Hnet Hok Hjson Hget. unfold failedCall, succeeded in Hfail.
  rewrite Hnet, Hok, Hjson, Hget in Hfail. cbn [andb] in Hfail.
  now apply negb_true_iff in Hfail.
Qed.

Ltac refute Hfail :=
  match goal with
  | Hnet : network ?env ?r ?i = Ret ?resp, Hok : ok ?resp = true,
    Hjson : json ?resp = Ret ?d, Hget : get ?d "success" = Ret ?v,
    Htrue : truthy ?v = true |- _ =>
      rewrite (failedCall_response env r i resp d v (Hfail r i) Hnet Hok Hjson Hget) in Htrue;
      discriminate Htrue
  end.

Section Outbound.
Variable env : Env.
Variable w : World.

Lemma login_returns botId username password :
  returned (login env botId username password w).
Proof.
  unfold returned, login.
  destruct (match password with
            | Some p => if truthy_string p then Some p else None
            | None => None
            end); cases; eauto.
Qed.

Lemma logout_returns botId : fst (logout env botId w) = Ret tt.
Proof. unfold logout. cases; reflexivity. Qed.

Lemma getRooms_returns botId : returned (getRooms env botId w).
Proof. unfold returned, getRooms. cases; eauto. Qed.

Lemma joinRoom_returns botId roomName : returned (joinRoom env botId roomName w).
Proof. unfold returned, joinRoom. cases; eauto. Qed.

Lemma leaveRoom_returns botId roomId : fst (leaveRoom env botId roomId w) = Ret tt.
Proof. unfold leaveRoom. cases; reflexivity. Qed.

Lemma sendMessage_returns botId roomId text :
  fst (sendMessage env botId roomId text w) = Ret tt.
Proof. unfold sendMessage. cases; reflexivity. Qed.

Hypothesis failing : forall resource init, failedCall (network env resource init) = true.

Lemma login_fails botId username password :
  fst (login env botId username password w) = Ret false.
Proof.
  unfold login.
  destruct (match password with
            | Some p => if truthy_string p then Some p else None
            | None => None
            end); cases; try reflexivity; refute failing.
Qed.

Lemma getRooms_fails botId : fst (getRooms env botId w) = Ret [].
Proof. unfold getRooms. cases; try reflexivity; refute failing. Qed.

Lemma joinRoom_fails botId roomName : fst (joinRoom env botId roomName w) = Ret VNull.
Proof. unfold joinRoom. cases; try reflexivity; refute failing. Qed.
End Outbound.

(** With handlers that return: when the calls to the backend are rejected
    or answered without success, each outbound operation returns its failure
    value. *)
Lemma outbound_failure_results env w botId username password roomName roomId text :
  (forall resource init, failedCall (network env resource init) = true) ->
  fst (login env botId username password w) = Ret false
  /\ fst (logout env botId w) = Ret tt
  /\ fst (getRooms env botId w) = Ret []
  /\ fst (joinRoom env botId roomName w) = Ret VNull
  /\ fst (leaveRoom env botId roomId w) = Ret tt
  /\ fst (sendMessage env botId roomId text w) = Ret tt.
Proof.
  intros failing. repeat split.
  - now apply login_fails.
  - apply logout_returns.
  - now apply getRooms_fails.
  - now apply joinRoom_fails.
  - apply leaveRoom_returns.
  - apply sendMessage_returns.
Qed.

(** The same results against a backend that answers and refuses. *)
Example outbound_refused :
  fst (login refusing "bot-a" "alice" (Some "secret") subscribed) = Ret false
  /\ fst (getRooms refusing "bot-a" subscribed) = Ret []
  /\ fst (joinRoom refusing "bot-a" "Lobby" subscribed) = Ret VNull.
Proof. repeat split. Qed.

(** With handlers that return, no outbound operation throws, whatever the
    backend answers. *)
Lemma outbound_never_throws env w botId username password roomName roomId text :
  returned (login env botId username password w)
  /\ returned (logout env botId w)
  /\ returned (getRooms env botId w)
  /\ returned (joinRoom env botId roomName w)
  /\ returned (leaveRoom env botId roomId w)
  /\ returned (sendMessage env botId roomId text w).
Proof.
  repeat split;
    eauto using login_returns, getRooms_returns, joinRoom_returns;
    eexists; eauto using logout_returns, leaveRoom_returns, sendMessage_returns.
Qed.

End ImvuSpec.


(** ** Further properties of the response generator *)

Module GeminiMore.
Import Gemini GeminiSpec.

(** *** Auxiliary facts *)

Lemma completions_app (t t' : list Effect) :
  completions (t ++ t') = (completions t ++ completions t')%list.
Proof.
  induction t as [|e t IH]; [reflexivity|].
  destruct e; cbn [completions app]; now rewrite ?IH.
Qed.

Lemma delays_app (t t' : list Effect) :
  delays (t ++ t') = (delays t ++ delays t')%list.
Proof.
  induction t as [|e t IH]; [reflexivity|].
  destruct e; cbn [delays app]; now rewrite ?IH.
Qed.

Lemma firstLine_single (s : string) : hasLineFeed (firstLine s) = false.
Proof.
  induction s as [|c s IH]; [reflexivity|]. cbn [firstLine].
  destruct (Ascii.eqb c (Ascii.ascii_of_nat 10)) eqn:Hc; [reflexivity|].
  cbn [hasLineFeed]. now rewrite Hc, IH.
Qed.

Lemma trim_blank (s : string) : blank s = true -> trim s = EmptyString.
Proof.
  unfold blank, trim. intros Hblank. apply String.eqb_eq in Hblank. now rewrite Hblank.
Qed.

Lemma truthy_string_nonempty (s : string) : truthy_string s = true -> s <> EmptyString.
Proof. intros H ->. discriminate H. Qed.

Lemma last_entry (history : list Message) :
  history !! (length history - 1)%nat = last history.
Proof.
  rewrite last_lookup. f_equal. lia.
Qed.

(** The whole run on the branch that asks for no completion. *)
Lemma mock_run_store env personality history botName provider s :
  usesMock env provider = true ->
  generateBotResponse env personality history botName provider s
  = (Ret (index mockResponses
            (Double.floor
               (Double.mul (random env (S (draws s)))
                  (Double.ofZ (Z.of_nat (length mockResponses)))))),
     {| trace :=
          ((trace s ++
            (if String.eqb provider "gemini" && negb (truthy_string (API_KEY env))
             then [ConsoleWarn
               "⚠️ Gemini API key not set. Using mock responses. Set VITE_GEMINI_API_KEY in your environment."]
             else []))
             ++ [Timeout (Double.add (Double.ofZ 500)
                            (Double.mul (random env (draws s)) (Double.ofZ 500)))])%list;
        draws := S (S (draws s)) |}).
Proof.
  intros Hmock. unfold generateBotResponse. rewrite Hmock.
  destruct (String.eqb provider "gemini" && negb (truthy_string (API_KEY env)));
    cbv [bind emit modify ret mathRandom sleep randomElement]; cbn [trace draws];
    rewrite ?app_nil_r; reflexivity.
Qed.

(** The whole run of [coordinateDialogue], up to the reply. *)
Lemma coordinateDialogue_run env botA botB history s :
  exists reply s',
    coordinateDialogue env botA botB history s
    = (Ret {| botToSpeak :=
                id (if String.eqb (lastSpeaker (id botB) history) (id botB)
                    then botA else botB);
              message := reply |}, s').
Proof.
  unfold coordinateDialogue, lastSpeaker. rewrite last_entry.
  cbv [bind sleep emit modify].
  destruct history as [|m history].
  - cbn [length Nat.ltb Nat.leb last from_option]. cbv [ret].
    match goal with |- context [generateBotResponse ?e ?p ?h ?n ?a ?st] =>
      destruct (generateBotResponse_returns e p h n a st) as (reply & s' & ->) end.
    eauto.
  - change (0 <? length (m :: history))%nat with true. cbv iota.
    destruct (last (m :: history)) as [lastMessage|] eqn:Hlast.
    + cbn [from_option]. cbv [ret].
      match goal with |- context [generateBotResponse ?e ?p ?h ?n ?a ?st] =>
        destruct (generateBotResponse_returns e p h n a st) as (reply & s' & ->) end.
      eauto.
    + apply last_None in Hlast. discriminate Hlast.
Qed.

(** *** Properties *)

(** X1. None of the four exported functions throws: each returns, for
    every environment, every history and every provider. *)
Theorem generator_never_throws env personality history botName provider botA botB input s :
  (exists reply s',
      generateBotResponse env personality history botName provider s = (Ret reply, s'))
  /\ (exists summary s', summarizeRoom history s = (Ret summary, s'))
  /\ (exists label s', detectEmotions env input s = (Ret label, s'))
  /\ (exists turn s', coordinateDialogue env botA botB history s = (Ret turn, s')).
Proof.
  split; [apply generateBotResponse_returns|].
  split; [|split].
  - unfold summarizeRoom. cbv [bind sleep emit modify ret].
    destruct (Nat.eqb_spec (length history) 0); [eauto|].
    rewrite last_entry. destruct (last history) eqn:Hlast; [eauto|].
    apply last_None in Hlast. subst history. contradiction.
  - unfold detectEmotions, randomElement. cbv [bind sleep emit modify ret mathRandom]. eauto.
  - destruct (coordinateDialogue_run env botA botB history s) as (reply & s' & ->). eauto.
Qed.

(** X2. [coordinateDialogue] names [botA] when the last entry of the
    history was written by [botB], and [botB] after an entry by anyone
    else, be it [botA] or a third party. *)
Theorem coordinateDialogue_speaker env botA botB older lastMessage s :
  exists turn s',
    coordinateDialogue env botA botB (older ++ [lastMessage])%list s = (Ret turn, s')
    /\ botToSpeak turn
       = (if String.eqb (authorId lastMessage) (id botB) then id botA else id botB).
Proof.
  destruct (coordinateDialogue_run env botA botB (older ++ [lastMessage])%list s)
    as (reply & s' & ->).
  eexists _, _. split; [reflexivity|]. cbn [botToSpeak].
  unfold lastSpeaker. rewrite last_snoc. cbn [from_option].
  now destruct (String.eqb (authorId lastMessage) (id botB)).
Qed.

(** X3. Two bots with different identifiers take turns: when the history
    is extended by an entry of the bot a call named, the next call names
    the other bot. *)
Theorem coordinateDialogue_takes_turns env botA botB history s1 turn1 s1' said s2 :
  id botA <> id botB ->
  coordinateDialogue env botA botB history s1 = (Ret turn1, s1') ->
  authorId said = botToSpeak turn1 ->
  exists turn2 s2',
    coordinateDialogue env botA botB (history ++ [said])%list s2 = (Ret turn2, s2')
    /\ botToSpeak turn2 <> botToSpeak turn1
    /\ (botToSpeak turn1 = id botA /\ botToSpeak turn2 = id botB
        \/ botToSpeak turn1 = id botB /\ botToSpeak turn2 = id botA).
Proof.
  intros Hdiff Hfirst Hsaid.
  destruct (coordinateDialogue_run env botA botB history s1) as (reply1 & s1'' & Hrun1).
  rewrite Hrun1 in Hfirst. injection Hfirst as <- _. cbn [botToSpeak] in *.
  destruct (coordinateDialogue_run env botA botB (history ++ [said])%list s2)
    as (reply2 & s2' & ->).
  eexists _, _. split; [reflexivity|]. cbn [botToSpeak].
  assert (Hnext : lastSpeaker (id botB) (history ++ [said])%list = authorId said).
  { unfold lastSpeaker. now rewrite last_snoc. }
  rewrite Hnext, Hsaid.
  destruct (String.eqb (lastSpeaker (id botB) history) (id botB)).
  - destruct (String.eqb_spec (id botA) (id botB)); [contradiction|].
    split; [intros Heq; now apply Hdiff | left; split; reflexivity].
  - rewrite String.eqb_refl. split; [exact Hdiff | right; split; reflexivity].
Qed.

Lemma coordinateDialogue_takes_turns_witness :
  exists turn2 s2',
    coordinateDialogue offline alice bruno
      (greeting ++ [{| author := "Bruno"; authorId := "bot-b"; text := "cool" |}])%list start
    = (Ret turn2, s2')
    /\ botToSpeak turn2 <> "bot-b"
    /\ ("bot-b" = id alice /\ botToSpeak turn2 = id bruno
        \/ "bot-b" = id bruno /\ botToSpeak turn2 = id alice).
Proof.
  apply (coordinateDialogue_takes_turns offline alice bruno greeting start
           {| botToSpeak := "bot-b"; message := Some "cool" |}
           (snd (coordinateDialogue offline alice bruno greeting start))
           {| author := "Bruno"; authorId := "bot-b"; text := "cool" |} start).
  - discriminate.
  - reflexivity.
  - reflexivity.
Defined.

(** The run on the branch that asks for a completion, by what the service
    answers. *)
Lemma llm_run_store env personality history botName provider s :
  usesMock env provider = false ->
  let prompt := generatePrompt personality history botName in
  let asked := {| trace := (trace s ++ [GenerateContent "gemini-2.5-flash" prompt])%list;
                  draws := draws s |} in
  let caught error :=
    (Ret (Some apology),
     {| trace := (trace asked
                    ++ [ConsoleError "Error generating Gemini response:" error])%list;
        draws := draws s |}) in
  generateBotResponse env personality history botName provider s
  = match generateContent env "gemini-2.5-flash" prompt with
    | Throw error => caught error
    | Ret response =>
        match Sdk.text response with
        | None => caught (TypeError "Cannot read properties of undefined (reading 'trim')")
        | Some t =>
            (Ret (if truthy_string (firstLine (trim t)) then Some (firstLine (trim t))
                  else index mockResponses 0), asked)
        end
    end.
Proof.
  intros Hllm. unfold generateBotResponse. rewrite Hllm.
  cbv [try_catch bind emit modify lift ret]. cbn [trace draws].
  destruct (generateContent env _ _) as [response|error]; [|reflexivity].
  destruct (Sdk.text response); reflexivity.
Qed.

(** X4. With a provider other than ['gpt'] and a key configured, the
    reply is always a text that is not empty and holds no line feed,
    whatever the completion service answers or throws. (A carriage return
    before the line feed stays in the reply: [split] cuts at line feeds
    only.) *)
Theorem generateBotResponse_single_line env personality history botName provider s :
  provider <> "gpt" ->
  API_KEY env <> EmptyString ->
  exists reply s',
    generateBotResponse env personality history botName provider s = (Ret (Some reply), s')
    /\ reply <> EmptyString
    /\ hasLineFeed reply = false.
Proof.
  intros Hp Hk. rewrite (llm_run_store _ _ _ _ _ _ (usesMock_false _ _ Hp Hk)). cbv zeta.
  destruct (generateContent env _ _) as [response|error].
  - destruct (Sdk.text response) as [t|].
    + destruct (truthy_string (firstLine (trim t))) eqn:Hline.
      * eexists _, _. split; [reflexivity|].
        split; [now apply truthy_string_nonempty | apply firstLine_single].
      * eexists _, _. split; [reflexivity|]. split; [discriminate | reflexivity].
    + eexists _, _. split; [reflexivity|]. split; [discriminate | reflexivity].
  - eexists _, _. split; [reflexivity|]. split; [discriminate | reflexivity].
Qed.

Lemma generateBotResponse_single_line_witness :
  exists reply s',
    generateBotResponse answering plain greeting "Alice" "gemini" start = (Ret (Some reply), s')
    /\ reply <> EmptyString
    /\ hasLineFeed reply = false.
Proof.
  apply (generateBotResponse_single_line answering plain greeting "Alice" "gemini" start).
  - discriminate.
  - discriminate.
Defined.

Example carriage_return_stays :
  firstLine (trim ("hello" +:+ String (Ascii.ascii_of_nat 13) nl +:+ "world"))
  = "hello" +:+ String (Ascii.ascii_of_nat 13) EmptyString.
Proof. reflexivity. Qed.

(** X5. On the same branch, an answer made only of characters that
    [trim] removes (the white space and line ends of Unicode, such as the
    no-break space) is replaced by the first filler phrase, and an answer
    that carries no text by the apology. *)
Theorem generateBotResponse_blank_answer env personality history botName provider s response :
  provider <> "gpt" ->
  API_KEY env <> EmptyString ->
  generateContent env "gemini-2.5-flash" (generatePrompt personality history botName)
    = Ret response ->
  from_option blank true (Sdk.text response) = true ->
  exists s',
    generateBotResponse env personality history botName provider s
    = (Ret (Some (match Sdk.text response with
                  | Some _ => "lol that's funny"
                  | None => "I'm not sure what to say."
                  end)), s').
Proof.
  intros Hp Hk Hanswer Hblank.
  rewrite (llm_run_store _ _ _ _ _ _ (usesMock_false _ _ Hp Hk)). cbv zeta.
  rewrite Hanswer. destruct (Sdk.text response) as [t|]; [|eauto].
  cbn [from_option] in Hblank. rewrite (trim_blank _ Hblank). eauto.
Qed.

Lemma generateBotResponse_blank_answer_witness :
  exists s',
    generateBotResponse blankAnswer plain greeting "Alice" "gemini" start
    = (Ret (Some "lol that's funny"), s').
Proof.
  apply (generateBotResponse_blank_answer blankAnswer plain greeting "Alice" "gemini" start
           {| Sdk.text := Some (nbsp +:+ " " +:+ nl +:+ bom +:+ " ") |}).
  - discriminate.
  - discriminate.
  - reflexivity.
  - reflexivity.
Defined.

(** X6. When the provider is ['gpt'] or no key is configured, no
    completion is asked for: the trace gains no call of the service. *)
Theorem generateBotResponse_mock_offline env personality history botName provider s :
  provider = "gpt" \/ API_KEY env = EmptyString ->
  completions (trace (snd (generateBotResponse env personality history botName provider s)))
  = completions (trace s).
Proof.
  intros Hmock. rewrite (mock_run_store _ _ _ _ _ _ (usesMock_true _ _ Hmock)).
  cbn [snd trace]. rewrite !completions_app.
  destruct (String.eqb provider "gemini" && negb (truthy_string (API_KEY env)));
    cbn [completions]; now rewrite !app_nil_r.
Qed.

Lemma generateBotResponse_mock_offline_witness :
  completions (trace (snd (generateBotResponse keyed plain greeting "Alice" "gpt" start)))
  = completions (trace start).
Proof.
  apply (generateBotResponse_mock_offline keyed plain greeting "Alice" "gpt" start).
  left. reflexivity.
Defined.

(** X7. With a provider other than ['gpt'] and a key configured, exactly
    one completion is asked for, of the model [gemini-2.5-flash] and with
    the prompt of [generatePrompt]; there is no second call, also when the
    first one fails. *)
Theorem generateBotResponse_one_call env personality history botName provider s :
  provider <> "gpt" ->
  API_KEY env <> EmptyString ->
  completions (trace (snd (generateBotResponse env personality history botName provider s)))
  = (completions (trace s)
       ++ [("gemini-2.5-flash", generatePrompt personality history botName)])%list.
Proof.
  intros Hp Hk. rewrite (llm_run_store _ _ _ _ _ _ (usesMock_false _ _ Hp Hk)). cbv zeta.
  destruct (generateContent env _ _) as [response|error];
    [destruct (Sdk.text response)|];
    cbn [snd trace]; rewrite !completions_app; cbn [completions];
    now rewrite ?app_nil_r.
Qed.

Lemma generateBotResponse_one_call_witness :
  completions (trace (snd (generateBotResponse keyed plain greeting "Alice" "gemini" start)))
  = (completions (trace start)
       ++ [("gemini-2.5-flash", generatePrompt plain greeting "Alice")])%list.
Proof.
  apply (generateBotResponse_one_call keyed plain greeting "Alice" "gemini" start).
  - discriminate.
  - discriminate.
Defined.

(** X8. On the branch without completion the function waits once, for
    at least 500 ms and at most 1000 ms, when the draw is a double in
    [0, 1). The sum is rounded as the code rounds it, and 1000 itself is
    reached at the largest draw. *)
Theorem generateBotResponse_mock_delay env personality history botName provider s :
  provider = "gpt" \/ API_KEY env = EmptyString ->
  Double.unit (random env (draws s)) = true ->
  exists ms,
    delays (trace (snd (generateBotResponse env personality history botName provider s)))
    = (delays (trace s) ++ [ms])%list
    /\ Double.leb (Double.ofZ 500) ms = true
    /\ Double.leb ms (Double.ofZ 1000) = true.
Proof.
  intros Hmock Hunit. rewrite (mock_run_store _ _ _ _ _ _ (usesMock_true _ _ Hmock)).
  cbn [snd trace]. eexists. split.
  - rewrite !delays_app.
    destruct (String.eqb provider "gemini" && negb (truthy_string (API_KEY env)));
      cbn [delays]; rewrite ?app_nil_r; reflexivity.
  - apply (DoubleSpec.delay_range _ Hunit).
Qed.

Lemma generateBotResponse_mock_delay_witness :
  exists ms,
    delays (trace (snd (generateBotResponse offline plain greeting "Alice" "gpt" start)))
    = (delays (trace start) ++ [ms])%list
    /\ Double.leb (Double.ofZ 500) ms = true
    /\ Double.leb ms (Double.ofZ 1000) = true.
Proof.
  apply (generateBotResponse_mock_delay offline plain greeting "Alice" "gpt" start).
  - left. reflexivity.
  - reflexivity.
Defined.

(** X9. [detectEmotions] returns one of [happy], [neutral] and
    [curious] when the draw is a double in [0, 1), the index being the
    floor of the rounded product as in the code; the text it is given plays
    no part: any two texts give the same run. *)
Theorem detectEmotions_label env input other s :
  Double.unit (random env (draws s)) = true ->
  (exists label s',
      detectEmotions env input s = (Ret (Some label), s')
      /\ label ∈ ["happy"; "neutral"; "curious"])
  /\ detectEmotions env input s = detectEmotions env other s.
Proof.
  intros Hunit. split; [|reflexivity].
  unfold detectEmotions. cbv [bind sleep emit modify].
  match goal with |- context [randomElement env emotions ?s0] =>
    destruct (randomElement_member env emotions s0 Hunit ltac:(discriminate))
      as (label & -> & Hin) end.
  eauto.
Qed.

Lemma detectEmotions_label_witness :
  (exists label s',
      detectEmotions offline "what a day" start = (Ret (Some label), s')
      /\ label ∈ ["happy"; "neutral"; "curious"])
  /\ detectEmotions offline "what a day" start = detectEmotions offline "ugh" start.
Proof.
  apply (detectEmotions_label offline "what a day" "ugh" start).
  reflexivity.
Defined.


(** The module loads on a server with the variable set, and does not on
    a page without [process] and without a Vite key. *)
Example load_samples :
  API_KEY <$> (match load server (fun _ => Double.half) (fun _ _ => Throw (TypeError "none")) with
               | Ret env => Some env
               | Throw _ => None
               end) = Some "k-456"
  /\ load page (fun _ => Double.half) (fun _ _ => Throw (TypeError "none"))
     = Throw {| kind := "ReferenceError"; Js.message := "process is not defined" |}.
Proof. split; reflexivity. Qed.

End GeminiMore.


(** ** Further properties of the backend connector *)

Module ImvuMore.
Import Imvu ImvuSpec.

(** *** Auxiliary facts *)



Lemma undisturbed_refl w : undisturbed w w.
Proof. repeat split. exists []. split; [now rewrite app_nil_r | reflexivity]. Qed.

Lemma undisturbed_logged env line w x :
  undisturbed w x -> undisturbed w (logged env line x).
Proof.
  intros (Hs & Ht & added & Htr & Hok). unfold undisturbed, logged. cbn [self timers trace].
  repeat split; try assumption.
  destruct (logCallback (self x)) as [cb|] eqn:Hcb; [|eauto].
  exists (added ++ [Invoke cb [VStr ("[" +:+ toLocaleTimeString env (ticks x) +:+ "] " +:+ line)]])%list.
  rewrite Htr, <- app_assoc. split; [reflexivity|].
  rewrite forallb_app, Hok. cbn [forallb benign andb].
  rewrite <- Hs, Hcb. now rewrite Nat.eqb_refl.
Qed.

Lemma undisturbed_emit e w x :
  (forall s, benign s e = true) ->
  undisturbed w x ->
  undisturbed w {| self := self x; trace := trace x ++ [e]; timers := timers x;
                   ticks := ticks x; sockets := sockets x |}.
Proof.
  intros He (Hs & Ht & added & Htr & Hok). unfold undisturbed. cbn [self timers trace].
  repeat split; try assumption.
  exists (added ++ [e])%list. rewrite Htr, <- app_assoc. split; [reflexivity|].
  rewrite forallb_app, Hok. cbn [forallb andb]. now rewrite He.
Qed.

Ltac settle :=
  cbn [snd];
  repeat first
    [ apply undisturbed_refl
    | apply undisturbed_logged
    | apply undisturbed_emit; [intros ?; reflexivity|] ].


(** *** Properties of the outbound operations *)

(** X12. An outbound operation leaves the four slots, the socket and the
    timers as they are, constructs no socket and sets no timer; of the
    registered handlers it calls the one of the log slot only. *)
Theorem outbound_undisturbed env w botId username password roomName roomId text :
  undisturbed w (snd (login env botId username password w))
  /\ undisturbed w (snd (logout env botId w))
  /\ undisturbed w (snd (getRooms env botId w))
  /\ undisturbed w (snd (joinRoom env botId roomName w))
  /\ undisturbed w (snd (leaveRoom env botId roomId w))
  /\ undisturbed w (snd (sendMessage env botId roomId text w)).
Proof.
  split; [|split; [|split; [|split; [|split]]]].
  - unfold login.
    destruct (match password with
              | Some p => if truthy_string p then Some p else None
              | None => None
              end); cases; settle.
  - unfold logout. cases; settle.
  - unfold getRooms. cases; settle.
  - unfold joinRoom. cases; settle.
  - unfold leaveRoom. cases; settle.
  - unfold sendMessage. cases; settle.
Qed.




Lemma get_nullish (v : Value) (key : string) :
  nullish v = true -> exists e, get v key = Throw e.
Proof. destruct v; try discriminate; intros _; eexists; reflexivity. Qed.











(** *** Properties of the socket handlers and of the loop *)

Ltac split_cases :=
  repeat match goal with
         | |- context [match ?x with _ => _ end] => destruct x eqn:?
         end.

Ltac measure :=
  cbn [snd self trace timers];
  rewrite ?attempts_app, ?timeouts_app, ?length_app;
  cbn [attempts timeouts length];
  rewrite ?logged_attempts, ?logged_timeouts, ?logged_timers, ?logged_self, ?app_nil_r.

Lemma onmessage_steady env frame w : steady w (snd (onmessage env frame w)).
Proof.
  unfold steady, onmessage, log.
  cbv [bind lift this read ret invoke emit modify clock].
  split_cases; measure; repeat split; lia.
Qed.

Lemma onopen_steady env w : steady w (snd (onopen env w)).
Proof. unfold steady, onopen. rewrite say_run. measure. repeat split. Qed.

Lemma onerror_steady env error w : steady w (snd (onerror env error w)).
Proof.
  unfold steady, onerror, bind. rewrite say_run. cbv [emit modify].
  measure. repeat split. lia.
Qed.

Lemma connectWebSocket_slots env w :
  slots (self (snd (connectWebSocket env w))) = slots (self w).
Proof.
  unfold connectWebSocket, try_catch, bind, newWebSocket.
  destruct (construct env (sockets w)) as [[]|e].
  - reflexivity.
  - rewrite say_run. reflexivity.
Qed.

Lemma dispatch_step env ev w :
  let w' := snd (dispatch env ev w) in
  let closed := match ev with SocketClose => 1%nat | _ => 0%nat end in
  slots (self w') = slots (self w)
  /\ (attempts (trace w') + length (timers w')
      = attempts (trace w) + length (timers w) + closed)%nat
  /\ (length (timeouts (trace w')) = length (timeouts (trace w)) + closed)%nat.
Proof.
  cbv zeta. destruct ev as [|frame|error| |]; cbn [dispatch].
  - destruct (onopen_steady env w) as (-> & -> & -> & ->). repeat split; lia.
  - destruct (onmessage_steady env frame w) as (-> & -> & -> & ->). repeat split; lia.
  - destruct (onerror_steady env error w) as (-> & -> & -> & ->). repeat split; lia.
  - unfold onclose, bind. rewrite say_run. cbv [setTimeout bind emit modify].
    measure. repeat split; lia.
  - unfold fire, bind, read. destruct (timers w) as [|[[] ms] later] eqn:Hw.
    + cbv [ret]. cbn [snd]. rewrite Hw. repeat split; cbn [length]; lia.
    + unfold modify, run.
      set (w2 := {| self := self w; trace := trace w; timers := later;
                    ticks := ticks w; sockets := sockets w |}).
      destruct (connectWebSocket_run env w2) as (Ht2 & Ha2 & Hp2).
      rewrite (connectWebSocket_slots env w2), Ht2, Ha2, Hp2.
      subst w2. cbn [self trace timers length]. repeat split; lia.
Qed.

Lemma loop_step env evs :
  forall w,
    let w' := loop env evs w in
    slots (self w') = slots (self w)
    /\ (attempts (trace w') + length (timers w')
        = attempts (trace w) + length (timers w) + closes evs)%nat
    /\ (length (timeouts (trace w')) = length (timeouts (trace w)) + closes evs)%nat.
Proof.
  induction evs as [|ev evs IH]; intros w; cbn [loop].
  - cbv zeta. cbn [closes]. repeat split; lia.
  - destruct (IH (snd (dispatch env ev w))) as (Hs & Ha & Ht).
    destruct (dispatch_step env ev w) as (Hs1 & Ha1 & Ht1).
    cbv zeta in *. rewrite Hs, Hs1. split; [reflexivity|].
    destruct ev; cbn [closes]; split; lia.
Qed.

(** X19. No event of the socket and no timer changes a slot: after any
    sequence of opens, frames, errors, closes and reconnects, the four
    registered handlers are those from before. *)
Theorem loop_keeps_slots env evs w : slots (self (loop env evs w)) = slots (self w).
Proof. apply (loop_step env evs w). Qed.


(** With handlers that return, [connectWebSocket] returns; the handle is
    the new socket unless the constructor threw, the slots are kept and no
    timer is set. *)
Lemma connectWebSocket_outcome env w :
  exists w',
    connectWebSocket env w = (Ret tt, w')
    /\ slots (self w') = slots (self w)
    /\ timers w' = timers w
    /\ timeouts (trace w') = timeouts (trace w)
    /\ ws (self w') = match construct env (sockets w) with
                      | Ret _ => Some {| url := "ws://localhost:3001/ws"; serial := sockets w |}
                      | Throw _ => ws (self w)
                      end.
Proof.
  destruct (connectWebSocket_run env w) as (Ht & _ & Hp).
  pose proof (connectWebSocket_slots env w) as Hs.
  revert Ht Hp Hs. unfold connectWebSocket, try_catch, bind, newWebSocket.
  destruct (construct env (sockets w)) as [[]|e].
  - cbv [update modify]. cbn [snd]. intros Ht Hp Hs. eexists. repeat split; assumption.
  - rewrite say_run. cbv [emit modify]. cbn [snd]. intros Ht Hp Hs.
    eexists. repeat split; assumption.
Qed.

(** X22. The last registration wins: after two handlers were registered
    for chat messages, a [message] frame calls the second one, once, with
    the [data] member of the frame ([undefined] when there is none), and
    the first one is not called. *)
Theorem onMessage_last_wins env w first second frame ms :
  JSON_parse env frame = Ret (VObj ms) ->
  member "type" ms = VStr "message" ->
  let w2 := snd (onMessage second (snd (onMessage first w))) in
  onmessage env frame w2 = (Ret tt, delivered second [member "data" ms] w2).
Proof.
  intros Hparse Htype. cbv zeta. unfold onmessage.
  cbv [bind lift this read ret invoke emit modify onMessage update]. cbn [snd self].
  rewrite Hparse. cbn [get]. rewrite Htype. reflexivity.
Qed.

Lemma onMessage_last_wins_witness :
  let w2 := snd (onMessage {| tag := 8 |} (snd (onMessage {| tag := 7 |} blank))) in
  onmessage accepting chatFrame w2
  = (Ret tt, delivered {| tag := 8 |}
               [member "data" [("type", VStr "message"); ("data", VStr "hello")]] w2).
Proof.
  apply (onMessage_last_wins accepting blank {| tag := 7 |} {| tag := 8 |} chatFrame
           [("type", VStr "message"); ("data", VStr "hello")]); reflexivity.
Defined.

(** X23. A [message], [user_joined] or [user_left] frame whose slot is
    empty is dropped: the handler returns and the store is untouched, also
    when the frame has no [data], which is then never read. *)
Theorem onmessage_empty_slot env w frame ms :
  JSON_parse env frame = Ret (VObj ms) ->
  member "type" ms = VStr "message" /\ messageCallback (self w) = None
  \/ member "type" ms = VStr "user_joined" /\ userJoinedCallback (self w) = None
  \/ member "type" ms = VStr "user_left" /\ userLeftCallback (self w) = None ->
  onmessage env frame w = (Ret tt, w).
Proof.
  intros Hparse Hslot. unfold onmessage.
  cbv [bind lift this read ret]. rewrite Hparse. cbn [get].
  destruct Hslot as [[-> ->] | [[-> ->] | [-> ->]]]; reflexivity.
Qed.

Lemma onmessage_empty_slot_witness :
  onmessage accepting joinedFrame blank = (Ret tt, blank).
Proof.
  apply (onmessage_empty_slot accepting blank joinedFrame [("type", VStr "user_joined")]).
  - reflexivity.
  - right. left. split; reflexivity.
Defined.

(** X24. With a handler registered, a [user_joined] or [user_left] frame
    whose [data] member is missing or [null] makes the socket handler
    throw, and the registered handler is not called: the store is
    untouched. *)
Theorem onmessage_user_event_without_data env w frame ms cb :
  JSON_parse env frame = Ret (VObj ms) ->
  member "type" ms = VStr "user_joined" /\ userJoinedCallback (self w) = Some cb
  \/ member "type" ms = VStr "user_left" /\ userLeftCallback (self w) = Some cb ->
  nullish (member "data" ms) = true ->
  exists e, onmessage env frame w = (Throw e, w).
Proof.
  intros Hparse Hslot Hdata. unfold onmessage.
  cbv [bind lift this read ret]. rewrite Hparse. cbn [get].
  destruct (get_nullish (member "data" ms) "roomId" Hdata) as (e & Hthrow).
  destruct Hslot as [[-> ->] | [-> ->]];
    cbn [strictEquals String.eqb Ascii.eqb Bool.eqb andb]; rewrite Hthrow; eauto.
Qed.

Lemma onmessage_user_event_without_data_witness :
  exists e, onmessage accepting joinedFrame subscribed = (Throw e, subscribed).
Proof.
  apply (onmessage_user_event_without_data accepting subscribed joinedFrame
           [("type", VStr "user_joined")] {| tag := 3 |}).
  - reflexivity.
  - left. split; reflexivity.
  - reflexivity.
Defined.

(** X25. A frame that is not JSON, or that is the JSON [null], makes
    the socket handler throw before anything else happens: the store is
    untouched, and the loop goes on with the next event as if the frame had
    not come. *)
Theorem onmessage_unreadable_frame env w frame rest :
  (exists e, JSON_parse env frame = Throw e) \/ JSON_parse env frame = Ret VNull ->
  (exists e, onmessage env frame w = (Throw e, w))
  /\ loop env (SocketMessage frame :: rest) w = loop env rest w.
Proof.
  intros Hbad.
  assert (Hthrow : exists e, onmessage env frame w = (Throw e, w)).
  { unfold onmessage. cbv [bind lift this read ret].
    destruct Hbad as [(e & ->) | ->]; eauto. }
  split; [exact Hthrow|].
  destruct Hthrow as (e & Hthrow). cbn [loop dispatch]. now rewrite Hthrow.
Qed.

Lemma onmessage_unreadable_frame_witness :
  (exists e, onmessage accepting "not json" subscribed = (Throw e, subscribed))
  /\ loop accepting [SocketMessage "not json"; SocketClose] subscribed
     = loop accepting [SocketClose] subscribed.
Proof.
  apply (onmessage_unreadable_frame accepting subscribed "not json" [SocketClose]).
  left. eexists. reflexivity.
Defined.

(** X26. A [log] frame whose [data] is a text reaches the handler of the
    log slot exactly as a line of the connector itself does: stamped with
    the time, and dropped when no handler is registered. *)
Theorem onmessage_log_frame env w frame ms line :
  JSON_parse env frame = Ret (VObj ms) ->
  member "type" ms = VStr "log" ->
  member "data" ms = VStr line ->
  onmessage env frame w = say env line w.
Proof.
  intros Hparse Htype Hdata. unfold onmessage, say.
  cbv [bind lift this read ret]. rewrite Hparse. cbn [get]. rewrite Htype, Hdata.
  reflexivity.
Qed.

Lemma onmessage_log_frame_witness :
  onmessage accepting noticeFrame subscribed = say accepting "bot ready" subscribed.
Proof.
  apply (onmessage_log_frame accepting subscribed noticeFrame
           [("type", VStr "log"); ("data", VStr "bot ready")] "bot ready"); reflexivity.
Defined.

End ImvuMore.


(** ** Properties of the connector with handlers that may throw *)

Module SubscribedSpec.
Import Imvu ImvuSpec.

(** *** The definitions at work *)

(** With a log handler that throws, the error of the handler leaves [login],
    with and without a password, and a close sets no timer; [sendMessage],
    which logs nothing once the call is answered, returns. *)
Example throwing_log_handler :
  fst (Subscribed.login Subscribed.logFails unreachable "bot-a" "alice" None subscribed)
  = Throw {| kind := "Error"; message := "log failed" |}
  /\ fst (Subscribed.login Subscribed.logFails unreachable "bot-a" "alice" (Some "secret")
            subscribed)
     = Throw {| kind := "Error"; message := "log failed" |}
  /\ timers (snd (Subscribed.onclose Subscribed.logFails unreachable subscribed)) = []
  /\ fst (Subscribed.sendMessage Subscribed.logFails accepting "bot-a" "room-1" "hi" subscribed)
     = Ret tt.
Proof. repeat split. Qed.

(** *** Auxiliary facts *)

(** With a log handler that returns, a line is logged as in [Imvu]. *)
Lemma say_calm react env line w :
  Subscribed.calm react (self w) ->
  Subscribed.say react env line w = (Ret tt, logged env line w).
Proof.
  intros Hcalm. unfold Subscribed.say, Subscribed.log, Subscribed.invoke, logged.
  cbv [bind clock this read ret lift emit modify toString].
  cbn [self trace timers ticks sockets].
  destruct (logCallback (self w)) as [cb|] eqn:Hcb; [|reflexivity].
  now rewrite (Hcalm cb Hcb).
Qed.

Ltac srun Hcalm :=
  repeat first
    [ rewrite say_run
    | rewrite say_calm by exact Hcalm
    | progress cbv [bind try_catch lift ret fetch emit modify unsuccessful reason throw]
    | progress cbn [fst snd negb] ].

Ltac scases Hcalm :=
  repeat first
    [ progress srun Hcalm
    | match goal with
      | |- context [network ?env ?r ?i] => destruct (network env r i) eqn:?
      | |- context [json ?r] => destruct (json r) eqn:?
      | |- context [ok ?r] => destruct (ok r) eqn:?
      | |- context [match get ?d ?k with _ => _ end] => destruct (get d k) eqn:?
      | |- context [negb (truthy ?v)] => destruct (truthy v) eqn:?
      | |- context [match toString ?f ?v with _ => _ end] => destruct (toString f v) eqn:?
      | |- context [match mapRooms ?v with _ => _ end] => destruct (mapRooms v) eqn:?
      end ].

(** With a log handler that returns, the operations, the close handler and
    the reconnect run as in [Imvu]: what is proved there about them holds of
    the connector under that one condition. *)
Lemma calm_refines react env w botId username password roomName roomId text :
  Subscribed.calm react (self w) ->
  Subscribed.login react env botId username password w = login env botId username password w
  /\ Subscribed.logout react env botId w = logout env botId w
  /\ Subscribed.getRooms react env botId w = getRooms env botId w
  /\ Subscribed.joinRoom react env botId roomName w = joinRoom env botId roomName w
  /\ Subscribed.leaveRoom react env botId roomId w = leaveRoom env botId roomId w
  /\ Subscribed.sendMessage react env botId roomId text w = sendMessage env botId roomId text w
  /\ Subscribed.onclose react env w = onclose env w
  /\ Subscribed.connectWebSocket react env w = connectWebSocket env w.
Proof.
  intros Hcalm. split; [|split; [|split; [|split; [|split; [|split; [|split]]]]]].
  - unfold Subscribed.login, login.
    destruct (match password with
              | Some p => if truthy_string p then Some p else None
              | None => None
              end); scases Hcalm; reflexivity.
  - unfold Subscribed.logout, logout. scases Hcalm; reflexivity.
  - unfold Subscribed.getRooms, getRooms. scases Hcalm; reflexivity.
  - unfold Subscribed.joinRoom, joinRoom. scases Hcalm; reflexivity.
  - unfold Subscribed.leaveRoom, leaveRoom. scases Hcalm; reflexivity.
  - unfold Subscribed.sendMessage, sendMessage. scases Hcalm; reflexivity.
  - unfold Subscribed.onclose, onclose. srun Hcalm. reflexivity.
  - unfold Subscribed.connectWebSocket, connectWebSocket, try_catch, bind, newWebSocket.
    destruct (construct env (sockets w)) as [[]|e]; [reflexivity|].
    srun Hcalm. reflexivity.
Qed.

Lemma calm_returning s : Subscribed.calm Subscribed.returning s.
Proof. intros cb _ args w. reflexivity. Qed.

(** A close and its timer, and any number of them, run as in [Imvu] and
    leave the log slot as it was. *)
Lemma closeCycle_calm react env w :
  Subscribed.calm react (self w) ->
  Subscribed.closeCycle react env w = closeCycle env w
  /\ Subscribed.calm react (self (closeCycle env w)).
Proof.
  intros Hcalm. split.
  - unfold Subscribed.closeCycle, closeCycle. cbn [Subscribed.loop loop Subscribed.dispatch dispatch].
    destruct (calm_refines react env w "" "" None "" "" "" Hcalm)
      as (_ & _ & _ & _ & _ & _ & -> & _).
    set (w1 := snd (onclose env w)).
    assert (Hcalm1 : Subscribed.calm react (self w1)).
    { pose proof (ImvuMore.dispatch_step env SocketClose w) as (Hslots & _).
      unfold slots in Hslots. injection Hslots as _ Hlog _ _.
      intros cb Hcb. apply Hcalm. now rewrite <- Hlog. }
    unfold Subscribed.fire, fire, bind, read.
    destruct (timers w1) as [|[[] ms] later]; [reflexivity|].
    unfold modify, Subscribed.run, run.
    match goal with |- context [Subscribed.connectWebSocket react env ?w2] =>
      destruct (calm_refines react env w2 "" "" None "" "" "" Hcalm1)
        as (_ & _ & _ & _ & _ & _ & _ & ->) end.
    reflexivity.
  - pose proof (ImvuMore.loop_step env [SocketClose; TimerDue] w) as (Hslots & _).
    unfold slots in Hslots. injection Hslots as _ Hlog _ _.
    unfold closeCycle. intros cb Hcb. apply Hcalm. now rewrite <- Hlog.
Qed.

Lemma closeCycles_calm react env w (n : nat) :
  Subscribed.calm react (self w) ->
  Nat.iter n (Subscribed.closeCycle react env) w = Nat.iter n (closeCycle env) w
  /\ Subscribed.calm react (self (Nat.iter n (closeCycle env) w)).
Proof.
  intros Hcalm. induction n as [|n [IHrun IHcalm]]; [split; [reflexivity | exact Hcalm]|].
  cbn [Nat.iter nat_rect].
  change (nat_rect _ w (fun _ => Subscribed.closeCycle react env) n)
    with (Nat.iter n (Subscribed.closeCycle react env) w).
  change (nat_rect _ w (fun _ => closeCycle env) n) with (Nat.iter n (closeCycle env) w) in *.
  rewrite IHrun. apply (closeCycle_calm react env _ IHcalm).
Qed.

(** *** The claims about returning and not throwing *)




(** C6, as the specification words it, fails: with a log handler that
    throws, [login] without a password does not return [false]. (It still
    sends nothing.) *)
Lemma login_without_password_not_for_every_handler :
  ~ (forall react env botId username password w,
       password = None \/ password = Some EmptyString ->
       exists w' added,
         Subscribed.login react env botId username password w = (Ret false, w')
         /\ trace w' = (trace w ++ added)%list
         /\ forallb (fun e => negb (isFetch e)) added = true).
Proof.
  intros claim.
  destruct (claim Subscribed.failing unreachable "bot-a" "alice" None subscribed
              ltac:(left; reflexivity)) as (w' & added & Hrun & _).
  vm_compute in Hrun. discriminate Hrun.
Qed.

(** C6, amended. When the handler of the log slot, if there is one,
    returns whenever it is called, [login] with the password left out or
    empty returns [false] and contacts nothing: what it adds to the trace
    holds no request. *)
Theorem login_without_password_calm react env botId username password w :
  Subscribed.calm react (self w) ->
  password = None \/ password = Some EmptyString ->
  exists w' added,
    Subscribed.login react env botId username password w = (Ret false, w')
    /\ trace w' = (trace w ++ added)%list
    /\ forallb (fun e => negb (isFetch e)) added = true.
Proof.
  intros Hcalm Hpassword.
  destruct (calm_refines react env w botId username password "" "" "" Hcalm) as (-> & _).
  now apply login_without_password.
Qed.

Lemma login_without_password_calm_witness :
  exists w' added,
    Subscribed.login Subscribed.returning unreachable "bot-a" "alice" (Some EmptyString)
      subscribed = (Ret false, w')
    /\ trace w' = (trace subscribed ++ added)%list
    /\ forallb (fun e => negb (isFetch e)) added = true.
Proof.
  apply (login_without_password_calm Subscribed.returning unreachable "bot-a" "alice"
           (Some EmptyString) subscribed).
  - intros cb _ args w. reflexivity.
  - right. reflexivity.
Defined.

(** C8, as the specification words it, fails: with a log handler that
    throws, a close sets no timer, since the handler is called before
    [setTimeout]. *)
Lemma onclose_not_for_every_handler :
  ~ (forall react env w,
       exists w',
         Subscribed.onclose react env w = (Ret tt, w')
         /\ timeouts (trace w') = (timeouts (trace w) ++ [(Reconnect, 3000%Z)])%list).
Proof.
  intros claim.
  destruct (claim Subscribed.failing unreachable subscribed) as (w' & Hrun & _).
  vm_compute in Hrun. discriminate Hrun.
Qed.

(** C8, amended. When the handler of the log slot, if there is one,
    returns whenever it is called, a close of the socket sets exactly one
    timer, for the reconnect and for 3000 ms, whatever else the state of the
    connector; no count of retries is kept, so after any number [n] of
    closes, each followed by its timer, [n] timers were set, all alike, and
    [n] sockets were constructed. *)
Theorem onclose_schedules_one_reconnect_calm react env w :
  Subscribed.calm react (self w) ->
  (exists w',
      Subscribed.onclose react env w = (Ret tt, w')
      /\ timeouts (trace w') = (timeouts (trace w) ++ [(Reconnect, 3000%Z)])%list
      /\ timers w' = (timers w ++ [(Reconnect, 3000%Z)])%list)
  /\ forall n : nat,
       let w' := Nat.iter n (Subscribed.closeCycle react env) w in
       timeouts (trace w') = (timeouts (trace w) ++ replicate n (Reconnect, 3000%Z))%list
       /\ attempts (trace w') = (attempts (trace w) + n)%nat.
Proof.
  intros Hcalm.
  destruct (onclose_schedules_one_reconnect env w) as (Hone & Hmany).
  split.
  - destruct (calm_refines react env w "" "" None "" "" "" Hcalm)
      as (_ & _ & _ & _ & _ & _ & -> & _).
    exact Hone.
  - intros n. cbv zeta. destruct (closeCycles_calm react env w n Hcalm) as (-> & _).
    apply Hmany.
Qed.

Lemma onclose_schedules_one_reconnect_calm_witness :
  (exists w',
      Subscribed.onclose Subscribed.returning unreachable subscribed = (Ret tt, w')
      /\ timeouts (trace w') = (timeouts (trace subscribed) ++ [(Reconnect, 3000%Z)])%list
      /\ timers w' = (timers subscribed ++ [(Reconnect, 3000%Z)])%list)
  /\ forall n : nat,
       let w' := Nat.iter n (Subscribed.closeCycle Subscribed.returning unreachable) subscribed in
       timeouts (trace w')
       = (timeouts (trace subscribed) ++ replicate n (Reconnect, 3000%Z))%list
       /\ attempts (trace w') = (attempts (trace subscribed) + n)%nat.
Proof.
  apply (onclose_schedules_one_reconnect_calm Subscribed.returning unreachable subscribed).
  intros cb _ args w. reflexivity.
Defined.

(** C9, as the specification words it, fails: the frame [null] is
    well-formed JSON and its type tag is none of the four, yet the handler
    throws on it, at the read of [type]. *)
Lemma onmessage_unknown_type_not_for_null :
  ~ (forall react env w frame data,
       JSON_parse env frame = Ret data ->
       Subscribed.wellFormed data = true ->
       get data "type" <> Ret (VStr "message") ->
       get data "type" <> Ret (VStr "user_joined") ->
       get data "type" <> Ret (VStr "user_left") ->
       get data "type" <> Ret (VStr "log") ->
       Subscribed.onmessage react env frame w = (Ret tt, w)).
Proof.
  intros claim.
  assert (Hrun := claim Subscribed.returning unreachable subscribed "null" VNull).
  specialize (Hrun ltac:(reflexivity) ltac:(reflexivity)).
  specialize (Hrun ltac:(discriminate) ltac:(discriminate)).
  specialize (Hrun ltac:(discriminate) ltac:(discriminate)).
  vm_compute in Hrun. discriminate Hrun.
Qed.

(** C9, amended. A frame that parses as JSON, is not the literal [null]
    and has a type tag that is none of the four (or none at all, as [{}] and
    [5]) is ignored, whatever the registered handlers would do: the socket
    handler returns, and the store is the one it started from, so no handler
    was called, and the four slots and the socket are as they were. *)
Theorem onmessage_unknown_type react env w frame data :
  JSON_parse env frame = Ret data ->
  Subscribed.wellFormed data = true ->
  data <> VNull ->
  get data "type" <> Ret (VStr "message") ->
  get data "type" <> Ret (VStr "user_joined") ->
  get data "type" <> Ret (VStr "user_left") ->
  get data "type" <> Ret (VStr "log") ->
  Subscribed.onmessage react env frame w = (Ret tt, w).
Proof.
  intros Hparse Hjson Hnull H1 H2 H3 H4. unfold Subscribed.onmessage.
  cbv [bind lift this read ret]. rewrite Hparse.
  destruct (get data "type") as [type|e] eqn:Htype.
  - rewrite !strictEquals_other by congruence. reflexivity.
  - destruct data; try discriminate Htype; [discriminate Hjson | contradiction].
Qed.

Lemma onmessage_unknown_type_witness :
  Subscribed.onmessage Subscribed.failing unreachable pingFrame subscribed
  = (Ret tt, subscribed).
Proof.
  apply (onmessage_unknown_type Subscribed.failing unreachable subscribed pingFrame
           (VObj [("type", VStr "ping"); ("data", VNum 1)]));
    [reflexivity | reflexivity | discriminate | discriminate | discriminate | discriminate
    | discriminate].
Defined.

(** *** Further properties *)

(** X11. When the handler of the log slot, if there is one, returns
    whenever it is called, no outbound operation throws, whatever the
    backend answers: a rejected call, an unreadable body, a body that is
    [null], a success whose [rooms] is not an array are all absorbed. *)
Theorem outbound_never_throws_calm react env w botId username password roomName roomId text :
  Subscribed.calm react (self w) ->
  returned (Subscribed.login react env botId username password w)
  /\ returned (Subscribed.logout react env botId w)
  /\ returned (Subscribed.getRooms react env botId w)
  /\ returned (Subscribed.joinRoom react env botId roomName w)
  /\ returned (Subscribed.leaveRoom react env botId roomId w)
  /\ returned (Subscribed.sendMessage react env botId roomId text w).
Proof.
  intros Hcalm.
  destruct (calm_refines react env w botId username password roomName roomId text Hcalm)
    as (-> & -> & -> & -> & -> & -> & _).
  apply outbound_never_throws.
Qed.

Lemma outbound_never_throws_calm_witness :
  returned (Subscribed.login Subscribed.returning accepting "bot-a" "alice" (Some "secret")
              subscribed)
  /\ returned (Subscribed.logout Subscribed.returning accepting "bot-a" subscribed)
  /\ returned (Subscribed.getRooms Subscribed.returning accepting "bot-a" subscribed)
  /\ returned (Subscribed.joinRoom Subscribed.returning accepting "bot-a" "Lobby" subscribed)
  /\ returned (Subscribed.leaveRoom Subscribed.returning accepting "bot-a" "room-1" subscribed)
  /\ returned (Subscribed.sendMessage Subscribed.returning accepting "bot-a" "room-1" "hello"
                 subscribed).
Proof.
  apply (outbound_never_throws_calm Subscribed.returning accepting subscribed "bot-a" "alice"
           (Some "secret") "Lobby" "room-1" "hello").
  intros cb _ args w. reflexivity.
Defined.

(** X21. When the handler of the log slot, if there is one, returns
    whenever it is called, [connectWebSocket] does not throw. When the
    constructor of the socket throws, the earlier handle stays; otherwise
    the handle is the new socket to [ws://localhost:3001/ws]. In both cases
    the slots are kept and no timer is set, so a failed construction is not
    retried. *)
Theorem connectWebSocket_outcome_calm react env w :
  Subscribed.calm react (self w) ->
  exists w',
    Subscribed.connectWebSocket react env w = (Ret tt, w')
    /\ slots (self w') = slots (self w)
    /\ timers w' = timers w
    /\ timeouts (trace w') = timeouts (trace w)
    /\ ws (self w') = match construct env (sockets w) with
                      | Ret _ => Some {| url := "ws://localhost:3001/ws"; serial := sockets w |}
                      | Throw _ => ws (self w)
                      end.
Proof.
  intros Hcalm.
  destruct (calm_refines react env w "" "" None "" "" "" Hcalm)
    as (_ & _ & _ & _ & _ & _ & _ & ->).
  apply ImvuMore.connectWebSocket_outcome.
Qed.

Lemma connectWebSocket_outcome_calm_witness :
  exists w',
    Subscribed.connectWebSocket Subscribed.returning careless subscribed = (Ret tt, w')
    /\ slots (self w') = slots (self subscribed)
    /\ timers w' = timers subscribed
    /\ timeouts (trace w') = timeouts (trace subscribed)
    /\ ws (self w') = match construct careless (sockets subscribed) with
                      | Ret _ => Some {| url := "ws://localhost:3001/ws";
                                         serial := sockets subscribed |}
                      | Throw _ => ws (self subscribed)
                      end.
Proof.
  apply (connectWebSocket_outcome_calm Subscribed.returning careless subscribed).
  intros cb _ args w. reflexivity.
Defined.

End SubscribedSpec.
